(** * The repository collector of legitify

    A shallow embedding of [internal/collectors] (the GitHub repository
    collector): organisation discovery, the cursor-driven traversal of an
    organisation's repositories, the per-repository enrichment stages, the
    branch-protection fix-up and the pre-flight count of repositories.

    The collector talks to GitHub through a client and to its base collector
    through a handful of methods.  The client is a record of reply functions
    over an abstract transport state; the base collector's channels become
    fields of a [World] that every operation threads explicitly, together
    with a trace of the calls made.  Loops that wait for the remote side to
    announce a last page take fuel; a run that exhausts it has no result.

    The file has the embedding first (Go values, imported packages, the
    collector, the pre-flight count, a scripted remote side), then the
    vocabulary of the statements, then the lemmas and theorems, and last the
    runs of the theorems against the scripted remote side. *)

From Stdlib Require Import ZArith List String Ascii Bool Lia PeanoNat Permutation.
Import ListNotations.
Local Open Scope string_scope.
Local Open Scope Z_scope.

Set Implicit Arguments.

(* ===================================================================== *)
(** ** Go values *)
(* ===================================================================== *)

(** A Go slice as the collector can observe it: [None] is the nil slice,
    [Some l] an allocated one. *)
Definition slice (A : Type) : Type := option (list A).

(** Go's [append(s, xs...)]: appending nothing gives [s] back, nil included. *)
Definition append {A : Type} (s xs : slice A) : slice A :=
  match xs with
  | None | Some [] => s
  | Some l =>
      match s with
      | None => Some l
      | Some l0 => Some (l0 ++ l)%list
      end
  end.

(** Signed 32-bit wrap-around ([int32] arithmetic). *)
Definition int32 (z : Z) : Z := (z + 2147483648) mod 4294967296 - 2147483648.

(** The errors the collector tells apart.  [ErrorResponse] stands for a
    [*github.ErrorResponse] (only its [Message] is inspected),
    [ErrBranchNotProtected] for the sentinel [github.ErrBranchNotProtected],
    [OtherError] for any other error value. *)
Inductive error : Type :=
| ErrorResponse (Message : string)
| ErrBranchNotProtected
| OtherError (text : string).

(** A call that fills a value or fails. *)
Inductive outcome (A : Type) : Type :=
| Ok (a : A)
| Err (e : error).
Arguments Ok {A} a.
Arguments Err {A} e.

Definition outcome_err {A : Type} (r : outcome A) : option error :=
  match r with
  | Ok _ => None
  | Err e => Some e
  end.

(* ===================================================================== *)
(** ** Packages the collector imports *)
(* ===================================================================== *)

Module namespace.
(** Modelled from the spec: the [namespace] package is not part of the
    sources; a namespace is "a category of resource collected
    independently (e.g., repository, member)". *)
Inductive Namespace : Type := Organization | Repository | Member.
End namespace.

Module permissions.
(** Modelled from the spec: the [permissions] package is not part of the
    sources; the collector names two required capabilities and passes
    viewer roles through untouched. *)
Inductive Permission : Type := RepoAdmin | RepoHookRead.


Definition Role : Type := string.
End permissions.

Module github.
(** Payloads of go-github that the collector stores without looking
    inside; only their identity matters here. *)
Record Hook : Type := { HookID : Z }.
Record User : Type := { UserLogin : string }.

(** [github.ListOptions]: the page to fetch. *)
Record ListOptions : Type := { Page : Z }.

(** Modelled from the spec: go-github's [Response] is not part of the
    sources.  The transport "must surface HTTP-status-equivalent
    information" and a paged list call returns its "next-page-or-nil": a
    reply carries its status code and the number of the next page, 0 when
    there is none.  The response is taken to be present on every reply, a
    failed one included, as the collector reads its status there. *)
Record Response : Type := { StatusCode : Z; NextPage : Z }.
End github.

Module scorecard.
Record Result : Type := { Score : Z }.
End scorecard.

Module ghcollected.
Record BranchProtectionRule : Type := { RuleID : string }.

Record GitHubQLBranch : Type := {
  BranchName : string;
  BranchProtectionRule_ : option BranchProtectionRule
}.

(** The fields of [GitHubQLRepository] the collector reads.  The name of
    the default branch, which the collector dereferences without a test, is
    taken to be set. *)
Record GitHubQLRepository : Type := {
  Name : string;
  Url : string;
  IsPrivate : bool;
  ViewerPermission : permissions.Role;
  DefaultBranchRef : option GitHubQLBranch
}.

Record GitHubQLPageInfo : Type := {
  EndCursor : string;
  HasNextPage : bool
}.

(** [ghcollected.Repository]: the node of the structured query and the
    enrichment fields, each of them nil until a stage fills it. *)
Record Repository : Type := {
  Repository_ : GitHubQLRepository;
  VulnerabilityAlertsEnabled : option bool;
  NoBranchProtectionPermission : bool;
  Hooks : slice github.Hook;
  Collaborators : slice github.User;
  Scorecard : option scorecard.Result
}.

(** Modelled from the spec: the plan tier of a tenant, "free/paid", which
    "gates which sub-resources are queryable". *)
Inductive PlanTier : Type := Free | Paid.

(** The organisation as the collector reads it; [Login], which the
    collector dereferences without a test, is taken to be set. *)
Record ExtendedOrg : Type := {
  Login : string;
  Role : permissions.Role;
  Plan : PlanTier
}.

(** Modelled from the spec: [ExtendedOrg.IsFree] is not part of the
    sources; the tenant is on the free tier. *)
Definition IsFree (o : ExtendedOrg) : bool :=
  match Plan o with
  | Free => true
  | Paid => false
  end.
End ghcollected.

Import ghcollected.

(** Field updates of [ghcollected.Repository] ([repo.F = v]). *)
Definition set_VulnerabilityAlertsEnabled (r : Repository) (v : option bool) : Repository :=
  {| Repository_ := Repository_ r;
     VulnerabilityAlertsEnabled := v;
     NoBranchProtectionPermission := NoBranchProtectionPermission r;
     Hooks := Hooks r;
     Collaborators := Collaborators r;
     Scorecard := Scorecard r |}.

Definition set_NoBranchProtectionPermission (r : Repository) (v : bool) : Repository :=
  {| Repository_ := Repository_ r;
     VulnerabilityAlertsEnabled := VulnerabilityAlertsEnabled r;
     NoBranchProtectionPermission := v;
     Hooks := Hooks r;
     Collaborators := Collaborators r;
     Scorecard := Scorecard r |}.

Definition set_Hooks (r : Repository) (v : slice github.Hook) : Repository :=
  {| Repository_ := Repository_ r;
     VulnerabilityAlertsEnabled := VulnerabilityAlertsEnabled r;
     NoBranchProtectionPermission := NoBranchProtectionPermission r;
     Hooks := v;
     Collaborators := Collaborators r;
     Scorecard := Scorecard r |}.

Definition set_Collaborators (r : Repository) (v : slice github.User) : Repository :=
  {| Repository_ := Repository_ r;
     VulnerabilityAlertsEnabled := VulnerabilityAlertsEnabled r;
     NoBranchProtectionPermission := NoBranchProtectionPermission r;
     Hooks := Hooks r;
     Collaborators := v;
     Scorecard := Scorecard r |}.

Definition set_Scorecard (r : Repository) (v : option scorecard.Result) : Repository :=
  {| Repository_ := Repository_ r;
     VulnerabilityAlertsEnabled := VulnerabilityAlertsEnabled r;
     NoBranchProtectionPermission := NoBranchProtectionPermission r;
     Hooks := Hooks r;
     Collaborators := Collaborators r;
     Scorecard := v |}.

(** The composite literal [ghcollected.Repository{Repository: repository}]. *)
Definition new_Repository (repository : GitHubQLRepository) : Repository :=
  {| Repository_ := repository;
     VulnerabilityAlertsEnabled := None;
     NoBranchProtectionPermission := false;
     Hooks := None;
     Collaborators := None;
     Scorecard := None |}.

(* ===================================================================== *)
(** ** The base collector's records *)
(* ===================================================================== *)

(** Modelled from the spec: [missingPermission] and [newMissingPermission]
    are not part of the sources.  A MissingPermission holds the "required
    capability, the fully-qualified entity name it applies to, a
    human-readable effect description, and the namespace it belongs to". *)
Record missingPermission : Type := {
  Permission : permissions.Permission;
  Entity : string;
  Effect : string;
  Namespace : namespace.Namespace
}.

Definition newMissingPermission (permission : permissions.Permission)
    (entity effect : string) (ns : namespace.Namespace) : missingPermission :=
  {| Permission := permission; Entity := entity; Effect := effect; Namespace := ns |}.

(** Modelled from the spec: [fullRepoName] is not part of the sources; it
    builds "the fully-qualified entity name" of a repository from the login
    of its organisation and its own name. *)
Definition fullRepoName (org repo : string) : string := org ++ "/" ++ repo.

Definition orgIsFreeEffect : string :=
  "Branch protection cannot be collected because the organization is in free plan".

(** What [collectData] hands to the output channel. *)
Record CollectedData : Type := {
  Org : ExtendedOrg;
  Entity_ : Repository;
  CanonicalLink : string;
  ViewerRoles : list permissions.Role
}.

(** The progress channel: [totalCollectionChange] and
    [collectionChangeByOne]. *)
Inductive Progress : Type :=
| TotalChange (n : Z)
| CollectionChange (n : Z).

(** A [log.Printf] call: the format and its arguments. *)
Inductive LogArg : Type :=
| ArgString (s : string)
| ArgError (e : error).

Definition LogLine : Type := (string * list LogArg)%type.

(** [Metadata] of a collector. *)
Record Metadata : Type := { TotalEntities : Z }.

(* ===================================================================== *)
(** ** The client *)
(* ===================================================================== *)

(** The network calls the collector issues, kept in a trace. *)
Inductive Call : Type :=
| CallCollectOrganizations
| CallQueryTotalCount (login : string)
| CallQueryRepos (login : string) (repositoryCursor : option string)
| CallGetVulnerabilityAlerts (org repo : string)
| CallListHooks (org repo : string) (page : Z)
| CallListCollaborators (org repo : string)
| CallGetBranchProtection (org repo branch : string)
| CallScorecard (url : string) (isPrivate : bool).

Definition is_branch_protection_call (c : Call) : bool :=
  match c with
  | CallGetBranchProtection _ _ _ => true
  | _ => false
  end.

(** The data a [repoQuery] is filled with. *)
Record repoQuery : Type := {
  PageInfo : GitHubQLPageInfo;
  Nodes : list GitHubQLRepository
}.

(** What [Repositories.ListHooks] returns: [hooks, resp, err]. *)
Record ListHooksReply : Type := {
  hooks : slice github.Hook;
  resp : github.Response;
  err : option error
}.

Module ghclient.
(** The client's type is not part of the sources: it is taken as a record
    of reply functions.  [T] is the state of the remote side, so a call may
    answer differently each time it is made.  [Calculate] is the external
    scoring function, kept with the other remote calls. *)
Record Client (T : Type) : Type := {
  CollectOrganizations : T -> outcome (list ExtendedOrg) * T;
  QueryTotalCount : string -> T -> outcome Z * T;
  QueryRepos : string -> option string -> T -> outcome repoQuery * T;
  GetVulnerabilityAlerts : string -> string -> T -> outcome bool * T;
  ListHooks : string -> string -> github.ListOptions -> T -> ListHooksReply * T;
  ListCollaborators : string -> string -> T -> outcome (slice github.User) * T;
  GetBranchProtection : string -> string -> string -> T -> option error * T;
  Calculate : string -> bool -> T -> outcome scorecard.Result * T
}.
End ghclient.

Record repositoryCollector (T : Type) : Type := {
  Client : ghclient.Client T;
  scorecardEnabled : bool
}.

(* ===================================================================== *)
(** ** The world and its monad *)
(* ===================================================================== *)

(** Everything a run of the collector can change: the remote side, the trace
    of calls made (each with the error it returned, if any), the permission
    tracker, the channel of collected entities, the progress channel and the
    log. *)
Record World (T : Type) : Type := {
  transport : T;
  calls : list (Call * option error);
  tracker : list missingPermission;
  emitted : list CollectedData;
  progress : list Progress;
  logs : list LogLine
}.

(** A computation over the world; [None] is a run that does not end within
    the fuel given to its loops. *)
Definition M (T A : Type) : Type := World T -> option (A * World T).

Definition ret {T A : Type} (a : A) : M T A := fun w => Some (a, w).

Definition bind {T A B : Type} (m : M T A) (k : A -> M T B) : M T B :=
  fun w =>
    match m w with
    | None => None
    | Some (a, w') => k a w'
    end.

Definition diverge {T A : Type} : M T A := fun _ => None.

Declare Scope go_scope.
Delimit Scope go_scope with go.
Notation "x <- c ;; k" := (bind c (fun x => k))
  (at level 61, c at next level, right associativity) : go_scope.
Notation "' pat <- c ;; k" := (bind c (fun x => match x with pat => k end))
  (at level 61, pat pattern, c at next level, right associativity) : go_scope.
Notation "c ;; k" := (bind c (fun _ => k))
  (at level 61, right associativity) : go_scope.
Local Open Scope go_scope.

Section Effects.
Context {T : Type}.

(** A network call: the reply comes from the remote side, which moves on,
    and the call is appended to the trace. *)
Definition remote {A : Type} (c : Call) (failure : A -> option error)
    (f : T -> A * T) : M T A :=
  fun w =>
    let reply := f (transport w) in
    Some (fst reply, {| transport := snd reply;
                        calls := (calls w ++ [(c, failure (fst reply))])%list;
                        tracker := tracker w;
                        emitted := emitted w;
                        progress := progress w;
                        logs := logs w |}).

Definition log_Printf (format : string) (args : list LogArg) : M T unit :=
  fun w =>
    Some (tt, {| transport := transport w;
                 calls := calls w;
                 tracker := tracker w;
                 emitted := emitted w;
                 progress := progress w;
                 logs := (logs w ++ [(format, args)])%list |}).

(** Modelled from the spec: [issueMissingPermissions] is not part of the
    sources; the PermissionTracker's "record(MissingPermission)" appends
    the events, and "collection continues after recording an event". *)
Definition issueMissingPermissions (perms : list missingPermission) : M T unit :=
  fun w =>
    Some (tt, {| transport := transport w;
                 calls := calls w;
                 tracker := (tracker w ++ perms)%list;
                 emitted := emitted w;
                 progress := progress w;
                 logs := logs w |}).

(** Modelled from the spec: [collectData] is not part of the sources; the
    collector produces "a channel of collected entities", to which the
    entity is sent. *)
Definition collectData (org : ExtendedOrg) (entity : Repository)
    (canonicalLink : string) (viewerRoles : list permissions.Role) : M T unit :=
  fun w =>
    Some (tt, {| transport := transport w;
                 calls := calls w;
                 tracker := tracker w;
                 emitted := (emitted w ++ [{| Org := org; Entity_ := entity;
                                              CanonicalLink := canonicalLink;
                                              ViewerRoles := viewerRoles |}])%list;
                 progress := progress w;
                 logs := logs w |}).

Definition send_progress (p : Progress) : M T unit :=
  fun w =>
    Some (tt, {| transport := transport w;
                 calls := calls w;
                 tracker := tracker w;
                 emitted := emitted w;
                 progress := (progress w ++ [p])%list;
                 logs := logs w |}).

(** Modelled from the spec: the progress methods of the base collector are
    not part of the sources; the collector emits "a metadata record" and a
    "processed-count stream", one increment "after each item completes". *)
Definition totalCollectionChange (n : Z) : M T unit := send_progress (TotalChange n).
Definition collectionChangeByOne : M T unit := send_progress (CollectionChange 1).
End Effects.


(* ===================================================================== *)
(** ** The collector *)
(* ===================================================================== *)

Section Collector.
Context {T : Type}.
Variable rc : repositoryCollector T.

(** Modelled from the spec: [group_waiter] is not part of the sources.
    "spawn(unit of work) enqueues a unit for concurrent execution; wait()
    blocks until all spawned units have returned."  In the traversal a unit
    runs to its end where it is spawned, which is one schedule of the
    concurrent program; its units only append to the tracker, the entity
    channel and the progress channel.  The units of [CollectMetadata], which
    share a plain variable, are interleaved step by step further down. *)
Definition gw_Do (f : M T unit) : M T unit := f.

Definition gw_Wait : M T unit := ret tt.

(** A [for ... range] loop over a slice. *)
Fixpoint for_range {A : Type} (l : list A) (body : A -> M T unit) : M T unit :=
  match l with
  | [] => ret tt
  | x :: rest => body x ;; for_range rest body
  end.

(** Modelled from the spec: [ghclient.PaginateResults] is not part of the
    sources.  The Paginator "repeatedly issues a query, invokes the page
    handler with the page's items, and continues while the response's
    has-more flag is true, feeding the next cursor back into the query
    parameters.  Stops and returns immediately on the first transport error".
    [s] is the variable the mapper's closure captures and assigns. *)
Fixpoint PaginateResults_from {S : Type} (fuel : nat)
    (mapper : S -> github.ListOptions -> M T (S * outcome github.Response))
    (s : S) (opts : github.ListOptions) : M T (S * option error) :=
  match fuel with
  | O => diverge
  | Datatypes.S fuel' =>
      '(s', r) <- mapper s opts ;;
      match r with
      | Err e => ret (s', Some e)
      | Ok resp =>
          if github.NextPage resp =? 0 then ret (s', None)
          else PaginateResults_from fuel' mapper s' {| github.Page := github.NextPage resp |}
      end
  end.

Definition PaginateResults {S : Type} (fuel : nat)
    (mapper : S -> github.ListOptions -> M T (S * outcome github.Response))
    (s : S) : M T (S * option error) :=
  PaginateResults_from fuel mapper s {| github.Page := 0 |}.

(** The mapper [getRepositoryHooks] hands to [PaginateResults]; [result] is
    the slice its closure appends to. *)
Definition getRepositoryHooks_mapper (repo : Repository) (org : string)
    (result : slice github.Hook) (opts : github.ListOptions)
    : M T (slice github.Hook * outcome github.Response) :=
  reply <- remote (CallListHooks org (Name (Repository_ repo)) (github.Page opts)) err
             (ghclient.ListHooks (Client rc) org (Name (Repository_ repo)) opts) ;;
  match err reply with
  | Some e =>
      (if github.StatusCode (resp reply) =? 404 then
         let perm := newMissingPermission permissions.RepoHookRead
                       (fullRepoName org (Name (Repository_ repo)))
                       "Cannot read repository webhooks" namespace.Repository in
         issueMissingPermissions [perm]
       else ret tt) ;;
      ret (result, Err e)
  | None => ret (append result (hooks reply), Ok (resp reply))
  end.

Definition getRepositoryHooks (fuel : nat) (repo : Repository) (org : string)
    : M T (Repository * option error) :=
  '(result, err) <- PaginateResults fuel (getRepositoryHooks_mapper repo org) None ;;
  match err with
  | Some e => ret (repo, Some e)
  | None => ret (set_Hooks repo result, None)
  end.

Definition getVulnerabilityAlerts (repo : Repository) (org : string)
    : M T (Repository * option error) :=
  r <- remote (CallGetVulnerabilityAlerts org (Name (Repository_ repo))) outcome_err
         (ghclient.GetVulnerabilityAlerts (Client rc) org (Name (Repository_ repo))) ;;
  match r with
  | Err e => ret (repo, Some e)
  | Ok enabled => ret (set_VulnerabilityAlertsEnabled repo (Some enabled), None)
  end.

Definition getRepoCollaborators (repo : Repository) (org : string)
    : M T (Repository * option error) :=
  r <- remote (CallListCollaborators org (Name (Repository_ repo))) outcome_err
         (ghclient.ListCollaborators (Client rc) org (Name (Repository_ repo))) ;;
  match r with
  | Err e => ret (repo, Some e)
  | Ok users => ret (set_Collaborators repo users, None)
  end.

(** The local closure of [fixBranchProtectionInfo]: the error is a
    [*github.ErrorResponse] whose message is "Not Found". *)
Definition isNoPermErr (err : error) : bool :=
  match err with
  | ErrorResponse Message => String.eqb Message "Not Found"
  | _ => false
  end.

(** [err == github.ErrBranchNotProtected]. *)
Definition isErrBranchNotProtected (err : error) : bool :=
  match err with
  | ErrBranchNotProtected => true
  | _ => false
  end.

Definition fixBranchProtectionInfo (repository : Repository) (org : string)
    : M T (Repository * option error) :=
  match DefaultBranchRef (Repository_ repository) with
  | None => ret (repository, None)
  | Some ref =>
      match BranchProtectionRule_ ref with
      | Some _ => ret (repository, None)
      | None =>
          let repoName := Name (Repository_ repository) in
          let branchName := BranchName ref in
          err <- remote (CallGetBranchProtection org repoName branchName) (fun e => e)
                   (ghclient.GetBranchProtection (Client rc) org repoName branchName) ;;
          match err with
          | None =>
              log_Printf "incosistent permissions (GitHub bug): graphQL query failed, but branch protection info is available. Ignoring\n" [] ;;
              ret (repository, None)
          | Some e =>
              if isNoPermErr e then
                ret (set_NoBranchProtectionPermission repository true, None)
              else if isErrBranchNotProtected e then
                ret (repository, None)
              else
                ret (repository, Some e)
          end
      end
  end.

Definition checkMissingPermissions (repo : Repository) (entityName : string)
    : list missingPermission :=
  let missingPermissions := [] in
  if NoBranchProtectionPermission repo then
    let effect := "Cannot read repository branch protection information" in
    let perm := newMissingPermission permissions.RepoAdmin entityName effect
                  namespace.Repository in
    (missingPermissions ++ [perm])%list
  else missingPermissions.

Definition collectExtraData (fuel : nat) (org : ExtendedOrg)
    (repository : GitHubQLRepository) : M T Repository :=
  let repo := new_Repository repository in
  let login := Login org in
  '(repo, err) <- getVulnerabilityAlerts repo login ;;
  match err with
  | Some e =>
      log_Printf "error getting vulnerability alerts for %s: %s"
        [ArgString (fullRepoName login (Name (Repository_ repo))); ArgError e]
  | None => ret tt
  end ;;
  '(repo, err) <- getRepositoryHooks fuel repo login ;;
  match err with
  | Some e =>
      log_Printf "error getting repository hooks for %s: %s"
        [ArgString (fullRepoName login (Name (Repository_ repo))); ArgError e]
  | None => ret tt
  end ;;
  '(repo, err) <- getRepoCollaborators repo login ;;
  match err with
  | Some e =>
      log_Printf "error getting repository collaborators for %s: %s"
        [ArgString (fullRepoName login (Name (Repository_ repo))); ArgError e]
  | None => ret tt
  end ;;
  repo <- (if negb (IsPrivate (Repository_ repo)) || negb (IsFree org) then
             '(repo, err) <- fixBranchProtectionInfo repo login ;;
             match err with
             | Some e =>
                 log_Printf "error getting branch protection info for %s: %s"
                   [ArgString (Name repository); ArgError e]
             | None => ret tt
             end ;;
             ret repo
           else
             let perm := newMissingPermission permissions.RepoAdmin
                           (fullRepoName login (Name (Repository_ repo)))
                           orgIsFreeEffect namespace.Repository in
             issueMissingPermissions [perm] ;;
             ret repo) ;;
  if scorecardEnabled rc then
    r <- remote (CallScorecard (Url repository) (IsPrivate (Repository_ repo))) outcome_err
           (ghclient.Calculate (Client rc) (Url repository) (IsPrivate (Repository_ repo))) ;;
    match r with
    | Err e =>
        log_Printf "error getting scorecard result for %s: %s"
          [ArgString (Name repository); ArgError e] ;;
        ret (set_Scorecard repo None)
    | Ok scResult => ret (set_Scorecard repo (Some scResult))
    end
  else ret repo.

(** The unit spawned for one node of a page. *)
Definition collectRepositories_item (fuel : nat) (org : ExtendedOrg)
    (node : GitHubQLRepository) : M T unit :=
  repo <- collectExtraData fuel org node ;;
  let entityName := fullRepoName (Login org) (Name (Repository_ repo)) in
  let missingPermissions := checkMissingPermissions repo entityName in
  issueMissingPermissions missingPermissions ;;
  collectData org repo (Url (Repository_ repo))
    [Role org; ViewerPermission (Repository_ repo)] ;;
  collectionChangeByOne.

(** The unit spawned for one page. *)
Definition collectRepositories_page (fuel : nat) (org : ExtendedOrg)
    (query : repoQuery) : M T unit :=
  let nodes := Nodes query in
  for_range nodes (fun node => gw_Do (collectRepositories_item fuel org node)) ;;
  gw_Wait.

(** The [for] loop of [collectRepositories]; [repositoryCursor] is the entry
    of [variables] the loop assigns.  [steps] bounds the pages fetched. *)
Fixpoint collectRepositories_loop (fuel steps : nat) (org : ExtendedOrg)
    (repositoryCursor : option string) : M T (option error) :=
  match steps with
  | O => diverge
  | S steps' =>
      r <- remote (CallQueryRepos (Login org) repositoryCursor) outcome_err
             (ghclient.QueryRepos (Client rc) (Login org) repositoryCursor) ;;
      match r with
      | Err e => ret (Some e)
      | Ok query =>
          gw_Do (collectRepositories_page fuel org query) ;;
          if negb (HasNextPage (PageInfo query)) then
            gw_Wait ;;
            ret None
          else
            collectRepositories_loop fuel steps' org (Some (EndCursor (PageInfo query)))
      end
  end.

Definition collectRepositories (fuel : nat) (org : ExtendedOrg) : M T (option error) :=
  collectRepositories_loop fuel fuel org None.

(** Modelled from the spec: [utils.Retry] is not part of the sources.
    "Given an operation that returns (success-flag, error) and a maximum
    attempt count, re-invoke the operation until it signals success or
    attempts are exhausted; surface the last error if exhausted."  The label
    is "for diagnostics": an exhausted run is logged under it. *)
Fixpoint Retry_from (f : M T (bool * option error)) (attempts : nat)
    (description : string) (last : option error) : M T (option error) :=
  match attempts with
  | O =>
      match last with
      | Some e => log_Printf description [ArgError e]
      | None => ret tt
      end ;;
      ret last
  | S attempts' =>
      '(success, e) <- f ;;
      if success then ret None
      else Retry_from f attempts' description e
  end.

Definition Retry (f : M T (bool * option error)) (maxAttempts : nat)
    (description : string) : M T (option error) :=
  Retry_from f maxAttempts description None.

(** Modelled from the spec: [wrappedCollection] is not part of the sources;
    the collector runs its collection and hands out the channels the
    collection writes to, which here are fields of the world. *)
Definition wrappedCollection (collection : M T unit) : M T unit := collection.

Definition Collect (fuel : nat) : M T unit :=
  wrappedCollection (
    r <- remote CallCollectOrganizations outcome_err
           (ghclient.CollectOrganizations (Client rc)) ;;
    match r with
    | Err e => log_Printf "failed to collect organizations %s" [ArgError e]
    | Ok orgs =>
        totalCollectionChange 0 ;;
        for_range orgs (fun org =>
          let localOrg := org in
          gw_Do (
            Retry (err <- collectRepositories fuel localOrg ;; ret (true, err))
              5 ("collect repositories for " ++ Login localOrg) ;;
            ret tt)) ;;
        gw_Wait
    end).

End Collector.


(* ===================================================================== *)
(** ** The pre-flight count *)
(* ===================================================================== *)

Section Metadata.
Context {T : Type}.
Variable rc : repositoryCollector T.

(** The unit [CollectMetadata] spawns for one organisation, cut into the
    steps a scheduler can interleave with those of the other units: the
    count query, the read of [totalCount], and the write of the sum.
    [totalCount += x] on a plain [int32] variable is a read followed by a
    write; nothing in the closure makes the two one step. *)
Inductive unit_state : Type :=
| Spawned (org : ExtendedOrg)
| Queried (count : Z)
| Loaded (count read : Z)
| Returned.

Definition unit_step (u : unit_state) (totalCount : Z) : M T (unit_state * Z) :=
  match u with
  | Spawned org =>
      e <- remote (CallQueryTotalCount (Login org)) outcome_err
             (ghclient.QueryTotalCount (Client rc) (Login org)) ;;
      match e with
      | Err _ => ret (Returned, totalCount)
      | Ok count => ret (Queried count, totalCount)
      end
  | Queried count => ret (Loaded count totalCount, totalCount)
  | Loaded count read => ret (Returned, int32 (read + int32 count))
  | Returned => ret (Returned, totalCount)
  end.

(** One step of the unit at position [i]; a position past the end or a unit
    that has returned leaves everything as it is. *)
Fixpoint step_at (i : nat) (units : list unit_state) (totalCount : Z)
    : M T (list unit_state * Z) :=
  match units with
  | [] => ret ([], totalCount)
  | u :: rest =>
      match i with
      | O =>
          '(u', totalCount') <- unit_step u totalCount ;;
          ret (u' :: rest, totalCount')
      | S j =>
          '(rest', totalCount') <- step_at j rest totalCount ;;
          ret (u :: rest', totalCount')
      end
  end.

Fixpoint run_schedule (schedule : list nat) (units : list unit_state)
    (totalCount : Z) : M T (list unit_state * Z) :=
  match schedule with
  | [] => ret (units, totalCount)
  | i :: schedule' =>
      '(units', totalCount') <- step_at i units totalCount ;;
      run_schedule schedule' units' totalCount'
  end.

(** [gw.Wait()]: every unit that has not returned yet runs to its end. *)
Fixpoint wait_units (units : list unit_state) (totalCount : Z) : M T Z :=
  match units with
  | [] => ret totalCount
  | u :: rest =>
      '(u1, c1) <- unit_step u totalCount ;;
      '(u2, c2) <- unit_step u1 c1 ;;
      '(_, c3) <- unit_step u2 c2 ;;
      wait_units rest c3
  end.

(** [schedule] is the interleaving the scheduler picks for the spawned
    units, one position per step; what it leaves unfinished runs to its end
    at [gw.Wait()].  The empty schedule runs the units one after another. *)
Definition CollectMetadata (schedule : list nat) : M T Metadata :=
  r <- remote CallCollectOrganizations outcome_err
         (ghclient.CollectOrganizations (Client rc)) ;;
  match r with
  | Err e =>
      log_Printf "failed to collect organization %s" [ArgError e] ;;
      ret {| TotalEntities := 0 |}
  | Ok orgs =>
      let totalCount := 0 in
      '(units, totalCount) <- run_schedule schedule (map Spawned orgs) totalCount ;;
      totalCount <- wait_units units totalCount ;;
      ret {| TotalEntities := totalCount |}
  end.

End Metadata.

(* ===================================================================== *)
(** ** The analyze command *)
(* ===================================================================== *)

Module cmd.

(** [toOptionsString]: the options between brackets, joined by "/"
    ([strings.Join]). *)
Definition toOptionsString (options : list string) : string :=
  "[" ++ String.concat "/" options ++ "]".

(** The fields of [args] that [analyze.go] reads; the type itself is
    declared elsewhere in the package. *)
Record args : Type := {
  Organizations : list string;
  Repositories : list string;
  Namespaces : list string;
  OutputFormat : string;
  OutputScheme : string;
  ColorWhen : string;
  ScorecardWhen : string;
  Token : string;
  ErrorFile : string;
  OutputFile : string;
  ScmType : string
}.

(** The validators [validateAnalyzeArgs] calls; they live in other packages
    and are taken as functions of the values they are given. *)
Record validators : Type := {
  validateCommonOptions : args -> option error;
  ValidateNamespaces : list string -> option error;
  ValidateOutputScheme : string -> option error;
  ValidateOutputFormat : string -> string -> option error;
  ValidateScorecardOption : string -> option error
}.

Definition validateAnalyzeArgs (v : validators) (analyzeArgs : args) : option error :=
  match validateCommonOptions v analyzeArgs with
  | Some err => Some err
  | None =>
  match ValidateNamespaces v (Namespaces analyzeArgs) with
  | Some err => Some err
  | None =>
  match ValidateOutputScheme v (OutputScheme analyzeArgs) with
  | Some err => Some err
  | None =>
  match ValidateOutputFormat v (OutputFormat analyzeArgs) (OutputScheme analyzeArgs) with
  | Some err => Some err
  | None =>
  match ValidateScorecardOption v (ScorecardWhen analyzeArgs) with
  | Some err => Some err
  | None =>
      if negb (List.length (Organizations analyzeArgs) =? 0)%nat
         && negb (List.length (Repositories analyzeArgs) =? 0)%nat
      then Some (OtherError "cannot use --org & --repo options together")
      else None
  end end end end end.

(** What [executeAnalyzeCommand] does to the system, kept in a trace. *)
Inductive Action : Type :=
| ActApplyEnvVars
| ActSetenv (key value : string)
| ActSetErrorFile (path : string)
| ActSetOutputFile (path : string)
| ActInitColorPackage (when : string)
| ActSetupGitHub
| ActSetupGitLab
| ActRun.

(** The functions [executeAnalyzeCommand] calls and the two constants of
    [scm_type] it compares with; none of them is in the sources.  [S] is the
    state of the system (environment, files), [E] the executor a setup
    returns. *)
Record system (S E : Type) : Type := {
  ApplyEnvVars : args -> S -> args * S;
  Setenv : string -> string -> S -> option error * S;
  setErrorFile : string -> S -> option error * S;
  setOutputFile : string -> S -> option error * S;
  InitColorPackage : string -> S -> option error * S;
  setupGitHub : args -> S -> outcome E * S;
  setupGitLab : args -> S -> outcome E * S;
  Run : E -> S -> option error * S;
  checks : validators;
  GitHub : string;
  GitLab : string
}.

(** The package variable [analyzeArgs], the system and the trace. *)
Record state (S : Type) : Type := {
  analyzeArgs : args;
  sys_state : S;
  actions : list Action
}.

Definition executeAnalyzeCommand {S E : Type} (sys : system S E) (st : state S)
    : option error * state S :=
  let (a, s1) := ApplyEnvVars sys (analyzeArgs st) (sys_state st) in
  let tr1 := (actions st ++ [ActApplyEnvVars])%list in
  let (err, s2) := Setenv sys "GITHUB_AUTH_TOKEN" (Token a) s1 in
  let tr2 := (tr1 ++ [ActSetenv "GITHUB_AUTH_TOKEN" (Token a)])%list in
  match err with
  | Some e => (Some e, {| analyzeArgs := a; sys_state := s2; actions := tr2 |})
  | None =>
  match validateAnalyzeArgs (checks sys) a with
  | Some e => (Some e, {| analyzeArgs := a; sys_state := s2; actions := tr2 |})
  | None =>
  let (err, s3) := setErrorFile sys (ErrorFile a) s2 in
  let tr3 := (tr2 ++ [ActSetErrorFile (ErrorFile a)])%list in
  match err with
  | Some e => (Some e, {| analyzeArgs := a; sys_state := s3; actions := tr3 |})
  | None =>
  let (err, s4) := setOutputFile sys (OutputFile a) s3 in
  let tr4 := (tr3 ++ [ActSetOutputFile (OutputFile a)])%list in
  match err with
  | Some e => (Some e, {| analyzeArgs := a; sys_state := s4; actions := tr4 |})
  | None =>
  let (err, s5) := InitColorPackage sys (ColorWhen a) s4 in
  let tr5 := (tr4 ++ [ActInitColorPackage (ColorWhen a)])%list in
  match err with
  | Some e => (Some e, {| analyzeArgs := a; sys_state := s5; actions := tr5 |})
  | None =>
      if String.eqb (ScmType a) (GitHub sys) then
        let (r, s6) := setupGitHub sys a s5 in
        let tr6 := (tr5 ++ [ActSetupGitHub])%list in
        match r with
        | Err e => (Some e, {| analyzeArgs := a; sys_state := s6; actions := tr6 |})
        | Ok executor =>
            let (err, s7) := Run sys executor s6 in
            (err, {| analyzeArgs := a; sys_state := s7;
                     actions := (tr6 ++ [ActRun])%list |})
        end
      else if String.eqb (ScmType a) (GitLab sys) then
        let (r, s6) := setupGitLab sys a s5 in
        let tr6 := (tr5 ++ [ActSetupGitLab])%list in
        match r with
        | Err e => (Some e, {| analyzeArgs := a; sys_state := s6; actions := tr6 |})
        | Ok executor =>
            let (err, s7) := Run sys executor s6 in
            (err, {| analyzeArgs := a; sys_state := s7;
                     actions := (tr6 ++ [ActRun])%list |})
        end
      else
        (Some (OtherError ("invalid scm type " ++ ScmType a)),
         {| analyzeArgs := a; sys_state := s5; actions := tr5 |})
  end end end end end.

(** Vocabulary for the statements about the command. *)

(** No "/" occurs in the string. *)
Fixpoint slash_free (s : string) : bool :=
  match s with
  | EmptyString => true
  | String c r => negb (Ascii.eqb c "/") && slash_free r
  end.

(** What a call of [executeAnalyzeCommand] does when nothing fails, with
    the arguments as [ApplyEnvVars] leaves them. *)
Definition planned {S E : Type} (sys : system S E) (a : args) : list Action :=
  ([ActApplyEnvVars; ActSetenv "GITHUB_AUTH_TOKEN" (Token a);
    ActSetErrorFile (ErrorFile a); ActSetOutputFile (OutputFile a);
    ActInitColorPackage (ColorWhen a)]
   ++ (if String.eqb (ScmType a) (GitHub sys) then [ActSetupGitHub; ActRun]
       else if String.eqb (ScmType a) (GitLab sys) then [ActSetupGitLab; ActRun]
       else []))%list.

End cmd.

(* ===================================================================== *)
(** ** A scripted remote side, for running the collector *)
(* ===================================================================== *)

Module Mock.

(** A reply that does not depend on the state of the remote side. *)
Definition fixed {A : Type} (a : A) : unit -> A * unit := fun t => (a, t).

Definition org_a : ExtendedOrg := {| Login := "a"; Role := "owner"; Plan := Paid |}.
Definition org_b : ExtendedOrg := {| Login := "b"; Role := "member"; Plan := Paid |}.
Definition org_free : ExtendedOrg := {| Login := "f"; Role := "owner"; Plan := Free |}.

Definition main_branch : GitHubQLBranch :=
  {| BranchName := "main"; BranchProtectionRule_ := None |}.

Definition protected_branch : GitHubQLBranch :=
  {| BranchName := "main"; BranchProtectionRule_ := Some {| RuleID := "r1" |} |}.

Definition node (name : string) (private : bool) (ref : option GitHubQLBranch)
    : GitHubQLRepository :=
  {| Name := name; Url := "https://github.com/" ++ name; IsPrivate := private;
     ViewerPermission := "ADMIN"; DefaultBranchRef := ref |}.

Definition hook1 : github.Hook := {| github.HookID := 1 |}.

Definition ok_response : github.Response :=
  {| github.StatusCode := 200; github.NextPage := 0 |}.

Definition hooks_ok : ListHooksReply :=
  {| hooks := Some [hook1]; resp := ok_response; err := None |}.

Definition hooks_failed (status : Z) : ListHooksReply :=
  {| hooks := None;
     resp := {| github.StatusCode := status; github.NextPage := 0 |};
     err := Some (ErrorResponse "Not Found") |}.

Definition last_page (nodes : list GitHubQLRepository) : repoQuery :=
  {| PageInfo := {| EndCursor := ""; HasNextPage := false |}; Nodes := nodes |}.

Definition page_then (cursor : string) (nodes : list GitHubQLRepository) : repoQuery :=
  {| PageInfo := {| EndCursor := cursor; HasNextPage := true |}; Nodes := nodes |}.

(** A remote side that answers every call the same way each time. *)
Definition client (orgs : outcome (list ExtendedOrg))
    (count : string -> outcome Z)
    (repos : string -> option string -> outcome repoQuery)
    (listHooks : ListHooksReply)
    (branchProtection : option error) : ghclient.Client unit :=
  {| ghclient.CollectOrganizations := fixed orgs;
     ghclient.QueryTotalCount := fun login => fixed (count login);
     ghclient.QueryRepos := fun login cursor => fixed (repos login cursor);
     ghclient.GetVulnerabilityAlerts := fun _ _ => fixed (Ok true);
     ghclient.ListHooks := fun _ _ _ => fixed listHooks;
     ghclient.ListCollaborators := fun _ _ => fixed (Ok None);
     ghclient.GetBranchProtection := fun _ _ _ => fixed branchProtection;
     ghclient.Calculate := fun _ _ => fixed (Err (OtherError "scorecard failed")) |}.

Definition collector (c : ghclient.Client unit) : repositoryCollector unit :=
  {| Client := c; scorecardEnabled := true |}.

Definition world0 : World unit :=
  {| transport := tt; calls := []; tracker := []; emitted := [];
     progress := []; logs := [] |}.

End Mock.

(* ===================================================================== *)
(** ** The vocabulary of the statements *)
(* ===================================================================== *)

Section Vocabulary.
Context {T : Type}.
Variable rc : repositoryCollector T.

(** [step w w' dc dt de dp dl]: from [w] to [w'] the trace of calls grew by
    [dc], the tracker by [dt], the entity channel by [de], the progress
    channel by [dp] and the log by [dl]; nothing was taken away. *)
Record step (w w' : World T) (dc : list (Call * option error))
    (dt : list missingPermission) (de : list CollectedData)
    (dp : list Progress) (dl : list LogLine) : Prop := {
  step_calls : calls w' = (calls w ++ dc)%list;
  step_tracker : tracker w' = (tracker w ++ dt)%list;
  step_emitted : emitted w' = (emitted w ++ de)%list;
  step_progress : progress w' = (progress w ++ dp)%list;
  step_logs : logs w' = (logs w ++ dl)%list
}.

(** [hooks_listing org repo page t n last t']: asked for the hooks of
    [org/repo] from [page] on, the remote side in state [t] ends the listing
    with its [n]-th reply [last] (a failure, or a page with no successor) and
    is then in state [t']. *)
Inductive hooks_listing (org repo : string)
    : Z -> T -> nat -> ListHooksReply -> T -> Prop :=
| listing_ends page t reply t' :
    ghclient.ListHooks (Client rc) org repo {| github.Page := page |} t = (reply, t') ->
    err reply <> None \/ github.NextPage (resp reply) = 0 ->
    hooks_listing org repo page t 1 reply t'
| listing_goes_on page t reply t' n last t'' :
    ghclient.ListHooks (Client rc) org repo {| github.Page := page |} t = (reply, t') ->
    err reply = None ->
    github.NextPage (resp reply) <> 0 ->
    hooks_listing org repo (github.NextPage (resp reply)) t' n last t'' ->
    hooks_listing org repo page t (S n) last t''.









(** A branch-protection lookup that was answered with the permission-denial
    error. *)
Definition denied_lookup (c : Call * option error) : bool :=
  match c with
  | (CallGetBranchProtection _ _ _, Some e) => isNoPermErr e
  | _ => false
  end.

(** The lookup [fixBranchProtectionInfo] makes for a repository, with the
    reply of the remote side in state [t]: none when the repository has no
    default branch or the structured query brought a rule. *)
Definition branch_lookup (repo : Repository) (org : string) (t : T)
    : list (Call * option error) :=
  match DefaultBranchRef (Repository_ repo) with
  | None => []
  | Some ref =>
      match BranchProtectionRule_ ref with
      | Some _ => []
      | None =>
          [(CallGetBranchProtection org (Name (Repository_ repo)) (BranchName ref),
            fst (ghclient.GetBranchProtection (Client rc) org (Name (Repository_ repo))
                   (BranchName ref) t))]
      end
  end.

(** An error of the lookup that is neither the permission denial nor the
    "branch not protected" condition. *)
Definition operational (e : error) : bool :=
  negb (isNoPermErr e) && negb (isErrBranchNotProtected e).







Definition made_branch_protection_call (c : Call * option error) : bool :=
  is_branch_protection_call (fst c).

Definition made_query_call (c : Call * option error) : bool :=
  match fst c with
  | CallQueryRepos _ _ => true
  | _ => false
  end.











(** The total the units reach when they run one after the other: the counts
    of the organisations whose query succeeded, added up in [int32]. *)
Fixpoint serial_count (orgs : list ExtendedOrg) (t : T) (totalCount : Z) : Z :=
  match orgs with
  | [] => totalCount
  | org :: rest =>
      let (r, t') := ghclient.QueryTotalCount (Client rc) (Login org) t in
      serial_count rest t'
        match r with
        | Ok count => int32 (totalCount + int32 count)
        | Err _ => totalCount
        end
  end.

(** The plain sum of the counts that were answered. *)
Fixpoint answered_sum (count : ExtendedOrg -> outcome Z) (orgs : list ExtendedOrg) : Z :=
  match orgs with
  | [] => 0
  | org :: rest =>
      match count org with
      | Ok c => c + answered_sum count rest
      | Err _ => answered_sum count rest
      end
  end.

(* --------------------------------------------------------------------- *)
(** *** Further vocabulary: the stages, the traversal and the run *)
(* --------------------------------------------------------------------- *)

(** [hooks_replies org repo page t pages t']: the replies of the remote side
    to the hooks listing of [org/repo] from [page] on, each with the page it
    was asked for, up to and including the reply that ends the listing. *)
Inductive hooks_replies (org repo : string)
    : Z -> T -> list (Z * ListHooksReply) -> T -> Prop :=
| replies_end page t reply t' :
    ghclient.ListHooks (Client rc) org repo {| github.Page := page |} t = (reply, t') ->
    err reply <> None \/ github.NextPage (resp reply) = 0 ->
    hooks_replies org repo page t [(page, reply)] t'
| replies_go_on page t reply t' rest t'' :
    ghclient.ListHooks (Client rc) org repo {| github.Page := page |} t = (reply, t') ->
    err reply = None ->
    github.NextPage (resp reply) <> 0 ->
    hooks_replies org repo (github.NextPage (resp reply)) t' rest t'' ->
    hooks_replies org repo page t ((page, reply) :: rest) t''.

(** The hooks of all the pages of a listing, in order. *)
Definition all_hooks (pages : list (Z * ListHooksReply)) : list github.Hook :=
  flat_map (fun pr => match hooks (snd pr) with
                      | Some l => l
                      | None => []
                      end) pages.

(** The slice a chain of [append]s from nil ends with: nil as long as
    nothing was appended. *)
Definition as_slice {A : Type} (l : list A) : slice A :=
  match l with
  | [] => None
  | _ => Some l
  end.

(** The calls of a hooks listing, as they enter the trace. *)
Definition hooks_calls (org repo : string) (pages : list (Z * ListHooksReply))
    : list (Call * option error) :=
  map (fun pr => (CallListHooks org repo (fst pr), err (snd pr))) pages.





(** The organisations whose unit has not made its count query yet. *)
Definition spawned (units : list unit_state) : list ExtendedOrg :=
  flat_map (fun u => match u with
                     | Spawned org => [org]
                     | _ => []
                     end) units.

Definition count_queries (orgs : list ExtendedOrg) : list Call :=
  map (fun org => CallQueryTotalCount (Login org)) orgs.

(** What a unit has still to add to the total, [count] being the answer of
    the remote side to the count query of each organisation. *)
Definition pending (count : ExtendedOrg -> outcome Z) (u : unit_state) : Z :=
  match u with
  | Spawned org =>
      match count org with
      | Ok c => c
      | Err _ => 0
      end
  | Queried c => c
  | Loaded c _ => c
  | Returned => 0
  end.

Definition pending_all (count : ExtendedOrg -> outcome Z) (units : list unit_state) : Z :=
  fold_right (fun u acc => pending count u + acc) 0 units.

(** A unit in the middle of its update, [added] being the sum of the counts
    written so far: its count is not negative, and what it read of the total
    lies between 0 and [added]. *)
Definition sound (added : Z) (u : unit_state) : Prop :=
  match u with
  | Queried c => 0 <= c
  | Loaded c r => 0 <= c /\ 0 <= r <= added
  | _ => True
  end.

(** The steps a unit has left. *)
Definition steps_left (u : unit_state) : nat :=
  match u with
  | Spawned _ => 3
  | Queried _ => 2
  | Loaded _ _ => 1
  | Returned => 0
  end.

(** The line [fixBranchProtectionInfo] logs when the lookup is answered
    although the structured query brought no rule. *)
Definition inconsistency_line : LogLine :=
  ("incosistent permissions (GitHub bug): graphQL query failed, but branch protection info is available. Ignoring\n",
   []).




End Vocabulary.

(* ===================================================================== *)
(** ** Scenarios for the scripted remote side *)
(* ===================================================================== *)

Module Scenario.
Import Mock.

(** A private repository of an organisation on the free plan, whose hooks
    cannot be read. *)
Definition private_node : GitHubQLRepository := node "r" true (Some main_branch).

Definition free_collector : repositoryCollector unit :=
  collector (client (Ok [org_free]) (fun _ => Ok 1)
               (fun _ _ => Ok (last_page [private_node])) (hooks_failed 404) None).

(** A public repository whose branch-protection lookup is denied. *)
Definition public_node : GitHubQLRepository := node "p" false (Some main_branch).


(** A public repository whose branch-protection lookup succeeds although the
    structured query brought no rule. *)
Definition inconsistent_collector : repositoryCollector unit :=
  collector (client (Ok [org_a]) (fun _ => Ok 1)
               (fun _ _ => Ok (last_page [public_node])) hooks_ok None).

(** Two organisations; the repository query of the first always fails, the
    second has one page. *)
Definition mixed_collector : repositoryCollector unit :=
  collector (client (Ok [org_a; org_b]) (fun _ => Ok 1)
               (fun login _ =>
                  if String.eqb login "a" then Err (OtherError "timeout")
                  else Ok (last_page [public_node]))
               hooks_ok (Some ErrBranchNotProtected)).



(** One organisation with two pages of one repository each. *)
Definition first_page : repoQuery := page_then "c1" [public_node].
Definition second_page : repoQuery := last_page [private_node].

Definition paged_collector : repositoryCollector unit :=
  collector (client (Ok [org_a]) (fun _ => Ok 1)
               (fun _ cursor =>
                  match cursor with
                  | None => Ok first_page
                  | Some _ => Ok second_page
                  end)
               hooks_ok (Some ErrBranchNotProtected)).

(** An operation that reports failure on its first two attempts and success
    from the third on; each attempt leaves a line in the log. *)
Definition flaky : M unit (bool * option error) :=
  fun w =>
    (log_Printf "attempt" [] ;;
     ret (2 <=? List.length (logs w), Some (OtherError "flaky")))%nat w.

(** An operation that never reports success. *)
Definition hopeless : M unit (bool * option error) :=
  log_Printf "attempt" [] ;;
  ret (false, Some (OtherError "down")).

End Scenario.

(* ===================================================================== *)
(** ** How a run changes the world *)
(* ===================================================================== *)

Section Steps.
Context {T : Type}.

Lemma step_refl (w : World T) : step w w [] [] [] [] [].
Proof. constructor; now rewrite app_nil_r. Qed.

Lemma step_trans (w w1 w2 : World T) dc dt de dp dl dc' dt' de' dp' dl' :
  step w w1 dc dt de dp dl ->
  step w1 w2 dc' dt' de' dp' dl' ->
  step w w2 (dc ++ dc') (dt ++ dt') (de ++ de') (dp ++ dp') (dl ++ dl').
Proof.
  intros [a b c d e] [a' b' c' d' e'].
  constructor; rewrite app_assoc; congruence.
Qed.

Lemma remote_run (A : Type) (c : Call) (failure : A -> option error)
    (f : T -> A * T) (w : World T) :
  exists w',
    remote c failure f w = Some (fst (f (transport w)), w')
    /\ transport w' = snd (f (transport w))
    /\ step w w' [(c, failure (fst (f (transport w))))] [] [] [] [].
Proof.
  unfold remote. destruct (f (transport w)) as [a t'] eqn:E. simpl.
  eexists; split; [reflexivity|]. split; [reflexivity|].
  constructor; simpl; now rewrite ?app_nil_r.
Qed.

Lemma log_Printf_run (format : string) (args : list LogArg) (w : World T) :
  exists w',
    log_Printf format args w = Some (tt, w')
    /\ transport w' = transport w
    /\ step w w' [] [] [] [] [(format, args)].
Proof.
  unfold log_Printf. eexists; split; [reflexivity|]. split; [reflexivity|].
  constructor; simpl; now rewrite ?app_nil_r.
Qed.

Lemma issueMissingPermissions_run (perms : list missingPermission) (w : World T) :
  exists w',
    issueMissingPermissions perms w = Some (tt, w')
    /\ transport w' = transport w
    /\ step w w' [] perms [] [] [].
Proof.
  unfold issueMissingPermissions. eexists; split; [reflexivity|]. split; [reflexivity|].
  constructor; simpl; now rewrite ?app_nil_r.
Qed.

Lemma collectData_run (org : ExtendedOrg) (entity : Repository) (link : string)
    (roles : list permissions.Role) (w : World T) :
  exists w',
    collectData org entity link roles w = Some (tt, w')
    /\ transport w' = transport w
    /\ step w w' [] []
         [{| Org := org; Entity_ := entity; CanonicalLink := link; ViewerRoles := roles |}]
         [] [].
Proof.
  unfold collectData. eexists; split; [reflexivity|]. split; [reflexivity|].
  constructor; simpl; now rewrite ?app_nil_r.
Qed.


(** Running a bind whose first computation is known. *)
Lemma bind_run (A B : Type) (m : M T A) (k : A -> M T B) (w w' : World T) (a : A) :
  m w = Some (a, w') -> bind m k w = k a w'.
Proof. intros E. unfold bind. now rewrite E. Qed.

End Steps.

(* ===================================================================== *)
(** ** The enrichment stages, one at a time *)
(* ===================================================================== *)

Section Stages.
Context {T : Type}.
Variable rc : repositoryCollector T.

Lemma hooks_listing_functional org repo page t n last t' n' last' t'' :
  hooks_listing rc org repo page t n last t' ->
  hooks_listing rc org repo page t n' last' t'' ->
  n = n' /\ last = last' /\ t' = t''.
Proof.
  intros H. revert n' last' t''.
  induction H as [page t reply t' E Hend | page t reply t' n last t'' E He Hn H IH];
    intros n' last' t3 H'; inversion H' as [? ? r2 ? E' Hend' | ? ? r2 ? ? ? ? E' He' Hn' H2]; subst;
    rewrite E in E'; inversion E'; subst.
  - auto.
  - destruct Hend as [Hend | Hend]; [now elim Hend | now elim Hn'].
  - destruct Hend' as [Hend' | Hend']; [now elim Hend' | now elim Hn].
  - destruct (IH _ _ _ H2) as (-> & -> & ->). auto.
Qed.



Ltac step_done :=
  constructor; simpl; rewrite ?app_nil_r; reflexivity.

Ltac facts :=
  repeat split; intros; try discriminate;
  repeat match goal with
         | H : Some _ = Some _ |- _ => inversion H; clear H; subst
         end;
  try reflexivity; auto.




Lemma fixBranchProtectionInfo_run (repo : Repository) (org : string) (w : World T) :
  exists r' oe w' dl,
    fixBranchProtectionInfo rc repo org w = Some ((r', oe), w')
    /\ step w w' (branch_lookup rc repo org (transport w)) [] [] [] dl
    /\ Repository_ r' = Repository_ repo
    /\ VulnerabilityAlertsEnabled r' = VulnerabilityAlertsEnabled repo
    /\ Hooks r' = Hooks repo
    /\ Collaborators r' = Collaborators repo
    /\ Scorecard r' = Scorecard repo
    /\ NoBranchProtectionPermission r' =
       NoBranchProtectionPermission repo
       || existsb denied_lookup (branch_lookup rc repo org (transport w))
    /\ (forall e, oe = Some e ->
          operational e = true /\ r' = repo /\ dl = []
          /\ exists c, In (c, Some e) (branch_lookup rc repo org (transport w)))
    /\ (forall c e, In (c, Some e) (branch_lookup rc repo org (transport w)) ->
          operational e = true -> oe = Some e).
Proof.
  unfold fixBranchProtectionInfo, branch_lookup, operational.
  destruct (DefaultBranchRef (Repository_ repo)) as [ref|].
  2:{ exists repo, None, w, []. split; [reflexivity|]. split; [apply step_refl|].
      simpl. rewrite orb_false_r. facts. contradiction. }
  destruct (BranchProtectionRule_ ref) as [rule|].
  { exists repo, None, w, []. split; [reflexivity|]. split; [apply step_refl|].
    simpl. rewrite orb_false_r. facts. contradiction. }
  unfold bind, remote, log_Printf, ret.
  destruct (ghclient.GetBranchProtection _ _ _ _ _) as [[e|] t']; simpl.
  - destruct (isNoPermErr e) eqn:Hn; [|destruct (isErrBranchNotProtected e) eqn:Hb].
    + eexists _, None, _, []. split; [reflexivity|]. split; [step_done|].
      simpl. rewrite orb_true_r.
      repeat (split; [reflexivity|]). split; [discriminate|].
      intros c e' [Hin|[]] Hop. inversion Hin; subst. rewrite Hn in Hop. discriminate.
    + eexists _, None, _, []. split; [reflexivity|]. split; [step_done|].
      simpl. rewrite !orb_false_r.
      repeat (split; [reflexivity|]). split; [discriminate|].
      intros c e' [Hin|[]] Hop. inversion Hin; subst. rewrite Hb, andb_false_r in Hop.
      discriminate.
    + eexists _, (Some e), _, []. split; [reflexivity|]. split; [step_done|].
      simpl. rewrite !orb_false_r.
      repeat (split; [reflexivity|]). split.
      * intros e' He'. inversion He'; subst. rewrite Hn, Hb.
        split; [reflexivity|]. split; [reflexivity|]. split; [reflexivity|].
        eexists; left; reflexivity.
      * intros c e' [Hin|[]] Hop. inversion Hin; subst. reflexivity.
  - eexists _, None, _, [_]. split; [reflexivity|]. split; [step_done|].
    simpl. rewrite !orb_false_r.
    repeat (split; [reflexivity|]). split; [discriminate|].
    intros c e' [Hin|[]] Hop. inversion Hin.
Qed.










Lemma checkMissingPermissions_granted (repo : Repository) (entityName : string) :
  NoBranchProtectionPermission repo = false ->
  checkMissingPermissions repo entityName = [].
Proof. unfold checkMissingPermissions. now intros ->. Qed.



(** C10.  The fix-up hands the repository back untouched, with no error, no
    record for the tracker and no permission-denied flag of its own, when the
    repository has no default branch (no call made), when the structured
    query brought a protection rule (no call made), and when it brought none
    but the direct call succeeds (one call, one log line): the returned
    repository is the one passed in, so what the successful call knew about
    the protection is not kept. *)
Theorem fixBranchProtectionInfo_leaves_unchanged (repository : Repository)
    (org entityName : string) (w : World T) :
  DefaultBranchRef (Repository_ repository) = None
  \/ (exists ref rule,
        DefaultBranchRef (Repository_ repository) = Some ref
        /\ BranchProtectionRule_ ref = Some rule)
  \/ (exists ref,
        DefaultBranchRef (Repository_ repository) = Some ref
        /\ BranchProtectionRule_ ref = None
        /\ fst (ghclient.GetBranchProtection (Client rc) org
                  (Name (Repository_ repository)) (BranchName ref) (transport w)) = None) ->
  exists w' dc dl,
    fixBranchProtectionInfo rc repository org w = Some ((repository, None), w')
    /\ step w w' dc [] [] [] dl
    /\ (List.length dc <= 1)%nat
    /\ (forall c e, ~ In (c, Some e) dc)
    /\ (DefaultBranchRef (Repository_ repository) = None -> dc = [] /\ dl = [])
    /\ (forall ref rule,
          DefaultBranchRef (Repository_ repository) = Some ref ->
          BranchProtectionRule_ ref = Some rule -> dc = [] /\ dl = [])
    /\ (NoBranchProtectionPermission repository = false ->
        checkMissingPermissions repository entityName = []).
Proof.
  intros Hcase.
  pose proof (@checkMissingPermissions_granted repository entityName) as Hcheck.
  unfold fixBranchProtectionInfo.
  destruct Hcase as [Hnone | [(ref & rule & Href & Hrule) | (ref & Href & Hrule & Hreply)]].
  - rewrite Hnone. exists w, [], []. split; [reflexivity|]. split; [apply step_refl|].
    split; [simpl; lia|]. split; [intros c e []|].
    split; [auto|]. split; [|exact Hcheck]. intros; discriminate.
  - rewrite Href, Hrule. exists w, [], []. split; [reflexivity|]. split; [apply step_refl|].
    split; [simpl; lia|]. split; [intros c e []|].
    split; [intros; discriminate|]. split; [auto|exact Hcheck].
  - rewrite Href, Hrule. unfold bind, remote, log_Printf, ret.
    destruct (ghclient.GetBranchProtection _ _ _ _ _) as [oe t'].
    simpl in Hreply. subst oe. simpl.
    eexists _, [_], [_]. split; [reflexivity|]. split; [step_done|].
    split; [simpl; lia|]. split; [intros c e [Hin|[]]; inversion Hin|].
    split; [intros; congruence|]. split; [intros; congruence|exact Hcheck].
Qed.

























(* --------------------------------------------------------------------- *)
(** *** The run over the organisations *)
(* --------------------------------------------------------------------- *)








End Stages.

(* ===================================================================== *)
(** ** The pre-flight count: what the schedule decides *)
(* ===================================================================== *)

Section Counting.
Context {T : Type}.
Variable rc : repositoryCollector T.

Lemma int32_idempotent (z : Z) : int32 (int32 z) = int32 z.
Proof.
  unfold int32.
  replace ((z + 2147483648) mod 4294967296 - 2147483648 + 2147483648)
    with ((z + 2147483648) mod 4294967296) by lia.
  now rewrite Z.mod_mod.
Qed.

Lemma int32_in_range (z : Z) :
  -2147483648 <= z < 2147483648 -> int32 z = z.
Proof.
  intros Hz. unfold int32. rewrite Z.mod_small; lia.
Qed.

(** When the discovery fails the count is zero, whatever the schedule, and
    the failure is logged. *)
Lemma CollectMetadata_discovery_failed (schedule : list nat) (e : error) (w : World T) :
  fst (ghclient.CollectOrganizations (Client rc) (transport w)) = Err e ->
  exists w',
    CollectMetadata rc schedule w = Some ({| TotalEntities := 0 |}, w')
    /\ step w w' [(CallCollectOrganizations, Some e)] [] [] []
         [("failed to collect organization %s", [ArgError e])].
Proof.
  intros Hfail. unfold CollectMetadata.
  destruct (remote_run CallCollectOrganizations outcome_err
              (ghclient.CollectOrganizations (Client rc)) w) as (w1 & Hq & _ & Hstep).
  rewrite Hfail in Hq, Hstep. simpl in Hstep.
  erewrite bind_run; [|exact Hq].
  destruct (log_Printf_run "failed to collect organization %s" [ArgError e] w1)
    as (w2 & Hlog & _ & Hstep2).
  erewrite bind_run; [|exact Hlog].
  exists w2. split; [reflexivity|]. exact (step_trans Hstep Hstep2).
Qed.

Lemma wait_units_serial (orgs : list ExtendedOrg) (totalCount : Z) (w : World T) :
  exists w' dc,
    wait_units rc (map Spawned orgs) totalCount w
    = Some (serial_count rc orgs (transport w) totalCount, w')
    /\ step w w' dc [] [] [] []
    /\ map fst dc = map (fun org => CallQueryTotalCount (Login org)) orgs.
Proof.
  revert totalCount w. induction orgs as [|org rest IH]; intros totalCount w.
  - exists w, []. split; [reflexivity|]. split; [apply step_refl|reflexivity].
  - simpl. unfold bind at 1. unfold bind at 1. unfold remote at 1.
    destruct (ghclient.QueryTotalCount (Client rc) (Login org) (transport w))
      as [[count|e] t'] eqn:Hq; unfold bind, ret; simpl.
    + match goal with
      | |- context [wait_units rc _ ?c ?w1] =>
          destruct (IH c w1) as (w' & dc & Hrun & Hstep & Hcalls)
      end.
      simpl in Hrun. rewrite Hrun.
      exists w', ((CallQueryTotalCount (Login org), None) :: dc).
      split; [reflexivity|].
      split.
      { destruct Hstep as [a b c d e0]. simpl in *.
        constructor; simpl; try assumption. rewrite a. now rewrite <- app_assoc. }
      simpl. now rewrite Hcalls.
    + match goal with
      | |- context [wait_units rc _ ?c ?w1] =>
          destruct (IH c w1) as (w' & dc & Hrun & Hstep & Hcalls)
      end.
      simpl in Hrun. rewrite Hrun.
      exists w', ((CallQueryTotalCount (Login org), Some e) :: dc).
      split; [reflexivity|].
      split.
      { destruct Hstep as [a b c d e0]. simpl in *.
        constructor; simpl; try assumption. rewrite a. now rewrite <- app_assoc. }
      simpl. now rewrite Hcalls.
Qed.

(** With its units run one after the other, [CollectMetadata] makes one
    count query per organisation, sends nothing to the tracker, logs nothing,
    and returns the serial total. *)
Lemma CollectMetadata_serial (orgs : list ExtendedOrg) (w : World T) :
  fst (ghclient.CollectOrganizations (Client rc) (transport w)) = Ok orgs ->
  exists w' dc,
    CollectMetadata rc [] w
    = Some ({| TotalEntities :=
                 serial_count rc orgs
                   (snd (ghclient.CollectOrganizations (Client rc) (transport w))) 0 |}, w')
    /\ step w w' ((CallCollectOrganizations, None) :: dc) [] [] [] []
    /\ map fst dc = map (fun org => CallQueryTotalCount (Login org)) orgs.
Proof.
  intros Hok. unfold CollectMetadata.
  destruct (remote_run CallCollectOrganizations outcome_err
              (ghclient.CollectOrganizations (Client rc)) w) as (w1 & Hq & Htr & Hstep).
  rewrite Hok in Hq, Hstep. simpl in Hstep.
  erewrite bind_run; [|exact Hq].
  simpl. unfold bind at 1. unfold ret at 1.
  destruct (wait_units_serial orgs 0 w1) as (w2 & dc & Hrun & Hstep2 & Hcalls).
  unfold bind, ret. rewrite Hrun. rewrite Htr.
  exists w2, dc. split; [reflexivity|].
  split; [exact (step_trans Hstep Hstep2)|exact Hcalls].
Qed.

Lemma answered_sum_nonneg (count : ExtendedOrg -> outcome Z) (orgs : list ExtendedOrg) :
  (forall org c, count org = Ok c -> 0 <= c) ->
  0 <= answered_sum count orgs.
Proof.
  intros Hpos. induction orgs as [|org rest IH]; simpl; [lia|].
  destruct (count org) as [c|e] eqn:Hc; [|exact IH].
  specialize (Hpos org c Hc). lia.
Qed.

(** The serial total is the plain sum of the counts that were answered, as
    long as the counts are not negative and the sum fits in [int32]. *)
Lemma serial_count_sum (count : ExtendedOrg -> outcome Z) (orgs : list ExtendedOrg) :
  (forall org t,
     fst (ghclient.QueryTotalCount (Client rc) (Login org) t) = count org) ->
  (forall org c, count org = Ok c -> 0 <= c) ->
  forall (t : T) (totalCount : Z),
    0 <= totalCount ->
    totalCount + answered_sum count orgs < 2147483648 ->
    serial_count rc orgs t totalCount = totalCount + answered_sum count orgs.
Proof.
  intros Hdet Hpos. induction orgs as [|org rest IH]; intros t totalCount H0 Hfit.
  - simpl. lia.
  - simpl in *. specialize (Hdet org t).
    destruct (ghclient.QueryTotalCount (Client rc) (Login org) t) as [r t'].
    simpl in Hdet. subst r.
    pose proof (answered_sum_nonneg count rest Hpos) as Hrest.
    destruct (count org) as [c|e] eqn:Hc.
    + specialize (Hpos org c Hc).
      rewrite (@int32_in_range c) by lia.
      rewrite (@int32_in_range (totalCount + c)) by lia.
      rewrite IH by lia. lia.
    + apply IH; assumption.
Qed.

(** C5, as the collector behaves.  Two organisations whose count queries
    both succeed: when the scheduler lets both units read [totalCount] before
    either writes it, the count of the first is lost and [CollectMetadata]
    returns the count of the second alone, not the sum. *)
Theorem CollectMetadata_can_lose_a_count (a b : ExtendedOrg) (ca cb : Z) (w : World T) :
  fst (ghclient.CollectOrganizations (Client rc) (transport w)) = Ok [a; b] ->
  (forall t, fst (ghclient.QueryTotalCount (Client rc) (Login a) t) = Ok ca) ->
  (forall t, fst (ghclient.QueryTotalCount (Client rc) (Login b) t) = Ok cb) ->
  exists w',
    CollectMetadata rc [0; 1; 0; 1; 0; 1]%nat w
    = Some ({| TotalEntities := int32 cb |}, w').
Proof.
  intros Hok Ha Hb. unfold CollectMetadata.
  destruct (remote_run CallCollectOrganizations outcome_err
              (ghclient.CollectOrganizations (Client rc)) w) as (w1 & Hq & _ & _).
  rewrite Hok in Hq. erewrite bind_run; [|exact Hq].
  cbv beta iota zeta delta -[fst snd int32 Z.add].
  rewrite Ha.
  cbv beta iota zeta delta -[fst snd int32 Z.add].
  rewrite Hb.
  cbv beta iota zeta delta -[fst snd int32 Z.add].
  eexists. apply f_equal. apply f_equal2; [|reflexivity]. apply f_equal.
  rewrite Z.add_0_l. apply int32_idempotent.
Qed.

End Counting.

(* ===================================================================== *)
(** ** Further properties of the stages and the traversal *)
(* ===================================================================== *)

Section Further.
Context {T : Type}.
Variable rc : repositoryCollector T.

Lemma append_as_slice (A : Type) (l : list A) (xs : slice A) :
  append (as_slice l) xs
  = as_slice (l ++ match xs with Some l' => l' | None => [] end)%list.
Proof.
  destruct xs as [[|x l']|]; simpl; rewrite ?app_nil_r; try reflexivity.
  destruct l as [|a l]; reflexivity.
Qed.

Lemma fold_append_as_slice (pages : list (Z * ListHooksReply)) (l : list github.Hook) :
  fold_left (fun acc pr => append acc (hooks (snd pr))) pages (as_slice l)
  = as_slice (l ++ all_hooks pages)%list.
Proof.
  revert l. induction pages as [|pr pages IH]; intros l; simpl.
  - now rewrite app_nil_r.
  - rewrite append_as_slice, IH, <- app_assoc. reflexivity.
Qed.

Lemma hooks_listing_replies (org repo : string) page t n last t' :
  hooks_listing rc org repo page t n last t' ->
  exists pages,
    hooks_replies rc org repo page t pages t' /\ List.length pages = n.
Proof.
  induction 1 as [page t reply t' E Hend | page t reply t' n last t'' E He Hn H IH].
  - exists [(page, reply)]. split; [now apply replies_end|reflexivity].
  - destruct IH as (pages & Hp & Hlen).
    exists ((page, reply) :: pages). split; [now eapply replies_go_on; eauto|].
    simpl. now rewrite Hlen.
Qed.

Lemma PaginateResults_gathers (repo : Repository) (org : string) page t pages t' :
  hooks_replies rc org (Name (Repository_ repo)) page t pages t' ->
  (forall pr, In pr pages -> err (snd pr) = None) ->
  forall (fuel : nat) (s : slice github.Hook) (w : World T),
    (List.length pages <= fuel)%nat ->
    transport w = t ->
    exists w',
      PaginateResults_from fuel (getRepositoryHooks_mapper rc repo org) s
        {| github.Page := page |} w
      = Some ((fold_left (fun acc pr => append acc (hooks (snd pr))) pages s, None), w')
      /\ transport w' = t'
      /\ step w w' (hooks_calls org (Name (Repository_ repo)) pages) [] [] [] [].
Proof.
  induction 1 as [page t reply t' E Hend | page t reply t' rest t'' E He Hn H IH];
    intros Hok fuel s w Hfuel Ht.
  - destruct fuel as [|fuel]; [simpl in Hfuel; lia|].
    assert (He : err reply = None) by exact (Hok (page, reply) (or_introl eq_refl)).
    destruct Hend as [Hend|Hend]; [now elim Hend|].
    simpl. unfold bind at 1. unfold getRepositoryHooks_mapper at 1.
    unfold bind at 1. unfold remote. rewrite Ht. rewrite E. simpl. rewrite He.
    simpl. rewrite Hend. simpl.
    eexists. split; [reflexivity|]. split; [reflexivity|].
    constructor; simpl; rewrite ?app_nil_r, ?He; reflexivity.
  - destruct fuel as [|fuel]; [simpl in Hfuel; lia|].
    simpl. unfold bind at 1. unfold getRepositoryHooks_mapper at 1.
    unfold bind at 1. unfold remote. rewrite Ht. rewrite E. simpl. rewrite He.
    simpl. destruct (github.NextPage (resp reply) =? 0) eqn:En.
    { apply Z.eqb_eq in En. now elim Hn. }
    match goal with
    | |- context [PaginateResults_from fuel _ ?s1 _ ?w1] =>
        destruct (IH (fun pr Hin => Hok pr (or_intror Hin)) fuel s1 w1
                    ltac:(simpl in Hfuel; lia) eq_refl)
          as (w' & Hrun & Htr & Hstep)
    end.
    exists w'. split; [exact Hrun|]. split; [exact Htr|].
    destruct Hstep as [a b c d e]. simpl in *.
    constructor; simpl; try assumption.
    rewrite a. now rewrite <- app_assoc.
Qed.

(** X3.  A hooks listing that ends without a failure: [getRepositoryHooks]
    asks for page 0 and then for the next page each reply names, and returns
    the repository with the hooks of all pages, in order, and no error; it
    sends nothing to the tracker.  When no page carried a hook the field is
    the nil slice: a repository whose hooks were not read before comes back
    exactly as it was, as if the listing had not been made. *)
Theorem getRepositoryHooks_gathers_every_page (fuel : nat) (repo : Repository)
    (org : string) (w : World T) pages t' :
  hooks_replies rc org (Name (Repository_ repo)) 0 (transport w) pages t' ->
  (forall pr, In pr pages -> err (snd pr) = None) ->
  (List.length pages <= fuel)%nat ->
  exists w',
    getRepositoryHooks rc fuel repo org w
    = Some ((set_Hooks repo (as_slice (all_hooks pages)), None), w')
    /\ transport w' = t'
    /\ step w w' (hooks_calls org (Name (Repository_ repo)) pages) [] [] [] []
    /\ (all_hooks pages = [] -> Hooks repo = None ->
        set_Hooks repo (as_slice (all_hooks pages)) = repo).
Proof.
  intros Hpages Hok Hfuel.
  destruct (@PaginateResults_gathers repo org 0 (transport w) pages t' Hpages Hok
              fuel None w Hfuel eq_refl) as (w' & Hrun & Htr & Hstep).
  exists w'. split.
  - unfold getRepositoryHooks, PaginateResults. unfold bind. rewrite Hrun.
    change None with (@as_slice github.Hook []) at 1.
    rewrite fold_append_as_slice. reflexivity.
  - split; [exact Htr|]. split; [exact Hstep|].
    intros -> Hnil. destruct repo; simpl in *. now subst.
Qed.









(** X5.  [fixBranchProtectionInfo] always returns.  It makes at most one
    call, sends nothing to the tracker, the entity channel or the progress
    channel, and hands back the repository it was given or that repository
    with the permission-denied flag set: it never clears the flag and
    touches no other field.  An error is returned only for a lookup error
    that is neither the permission denial nor "branch not protected", and
    then the repository is the one passed in. *)
Theorem fixBranchProtectionInfo_only_sets_the_flag (repository : Repository)
    (org : string) (w : World T) :
  exists r' oe w' dc dl,
    fixBranchProtectionInfo rc repository org w = Some ((r', oe), w')
    /\ step w w' dc [] [] [] dl
    /\ (List.length dc <= 1)%nat
    /\ (r' = repository \/ r' = set_NoBranchProtectionPermission repository true)
    /\ (NoBranchProtectionPermission repository = true ->
        NoBranchProtectionPermission r' = true)
    /\ (forall e, oe = Some e -> r' = repository /\ operational e = true).
Proof.
  destruct (fixBranchProtectionInfo_run rc repository org w)
    as (r' & oe & w' & dl & Hrun & Hstep & Hr & Hv & Hh & Hc & Hs & Hflag & Herr & _).
  exists r', oe, w', (branch_lookup rc repository org (transport w)), dl.
  split; [exact Hrun|]. split; [exact Hstep|].
  split.
  { unfold branch_lookup. destruct (DefaultBranchRef (Repository_ repository)) as [ref|];
      [|simpl; lia]. destruct (BranchProtectionRule_ ref); simpl; lia. }
  split.
  { destruct r' as [n v f h c sc], repository as [n0 v0 f0 h0 c0 sc0].
    simpl in *. subst.
    destruct (existsb denied_lookup _); rewrite ?orb_true_r, ?orb_false_r.
    - right. reflexivity.
    - left. reflexivity. }
  split.
  { intros Ht. rewrite Hflag, Ht. reflexivity. }
  intros e He. destruct (Herr e He) as (Hop & Hsame & _). split; assumption.
Qed.




(* --------------------------------------------------------------------- *)
(** *** The pre-flight count under every schedule *)
(* --------------------------------------------------------------------- *)

Lemma int32_range (z : Z) : -2147483648 <= int32 z < 2147483648.
Proof.
  unfold int32.
  pose proof (Z.mod_pos_bound (z + 2147483648) 4294967296 ltac:(lia)). lia.
Qed.

Lemma spawned_cons (u : unit_state) (units : list unit_state) :
  spawned (u :: units) = (spawned [u] ++ spawned units)%list.
Proof. unfold spawned. simpl. now rewrite app_nil_r. Qed.

Lemma unit_step_queries (u : unit_state) (totalCount : Z) (w : World T) :
  exists u' totalCount' w' dq,
    unit_step rc u totalCount w = Some ((u', totalCount'), w')
    /\ step w w' dq [] [] [] []
    /\ (map fst dq ++ count_queries (spawned [u']))%list = count_queries (spawned [u])
    /\ (-2147483648 <= totalCount < 2147483648 ->
        -2147483648 <= totalCount' < 2147483648)
    /\ (steps_left u' <= steps_left u - 1)%nat.
Proof.
  destruct u as [org|c|c r|]; simpl.
  - unfold bind, remote, ret.
    destruct (ghclient.QueryTotalCount (Client rc) (Login org) (transport w))
      as [[c|e] t']; simpl.
    + eexists _, _, _, [(CallQueryTotalCount (Login org), None)].
      split; [reflexivity|].
      split; [constructor; simpl; rewrite ?app_nil_r; reflexivity|].
      split; [reflexivity|]. split; [auto|simpl; lia].
    + eexists _, _, _, [(CallQueryTotalCount (Login org), Some e)].
      split; [reflexivity|].
      split; [constructor; simpl; rewrite ?app_nil_r; reflexivity|].
      split; [reflexivity|]. split; [auto|simpl; lia].
  - exists (Loaded c totalCount), totalCount, w, [].
    split; [reflexivity|]. split; [apply step_refl|].
    split; [reflexivity|]. split; [auto|simpl; lia].
  - exists Returned, (int32 (r + int32 c)), w, [].
    split; [reflexivity|]. split; [apply step_refl|].
    split; [reflexivity|]. split; [intros _; apply int32_range|simpl; lia].
  - exists Returned, totalCount, w, [].
    split; [reflexivity|]. split; [apply step_refl|].
    split; [reflexivity|]. split; [auto|simpl; lia].
Qed.

Lemma step_at_queries (i : nat) (units : list unit_state) (totalCount : Z) (w : World T) :
  exists units' totalCount' w' dq,
    step_at rc i units totalCount w = Some ((units', totalCount'), w')
    /\ step w w' dq [] [] [] []
    /\ Permutation (map fst dq ++ count_queries (spawned units'))
         (count_queries (spawned units))
    /\ (-2147483648 <= totalCount < 2147483648 ->
        -2147483648 <= totalCount' < 2147483648).
Proof.
  revert i totalCount w. induction units as [|u rest IH]; intros i totalCount w.
  - exists [], totalCount, w, []. split; [now destruct i|]. split; [apply step_refl|].
    split; [constructor|auto].
  - destruct i as [|j]; cbn [step_at].
    + destruct (unit_step_queries u totalCount w)
        as (u' & tc' & w' & dq & Hrun & Hstep & Hq & Hrange & _).
      unfold bind, ret. rewrite Hrun.
      exists (u' :: rest), tc', w', dq.
      split; [reflexivity|]. split; [exact Hstep|]. split; [|exact Hrange].
      rewrite (spawned_cons u'), (spawned_cons u). unfold count_queries in *.
      rewrite !map_app, app_assoc, Hq. apply Permutation_refl.
    + destruct (IH j totalCount w) as (rest' & tc' & w' & dq & Hrun & Hstep & Hq & Hrange).
      unfold bind, ret. rewrite Hrun.
      exists (u :: rest'), tc', w', dq.
      split; [reflexivity|]. split; [exact Hstep|]. split; [|exact Hrange].
      rewrite (spawned_cons u rest'), (spawned_cons u rest). unfold count_queries in *.
      rewrite !map_app.
      eapply Permutation_trans; [apply Permutation_app_swap_app|].
      apply Permutation_app_head. exact Hq.
Qed.

Lemma run_schedule_queries (schedule : list nat) (units : list unit_state)
    (totalCount : Z) (w : World T) :
  exists units' totalCount' w' dq,
    run_schedule rc schedule units totalCount w = Some ((units', totalCount'), w')
    /\ step w w' dq [] [] [] []
    /\ Permutation (map fst dq ++ count_queries (spawned units'))
         (count_queries (spawned units))
    /\ (-2147483648 <= totalCount < 2147483648 ->
        -2147483648 <= totalCount' < 2147483648).
Proof.
  revert units totalCount w. induction schedule as [|i schedule IH];
    intros units totalCount w.
  - exists units, totalCount, w, []. split; [reflexivity|]. split; [apply step_refl|].
    split; [apply Permutation_refl|auto].
  - destruct (step_at_queries i units totalCount w)
      as (u1 & tc1 & w1 & dq1 & Hrun1 & Hstep1 & Hq1 & Hr1).
    destruct (IH u1 tc1 w1) as (u2 & tc2 & w2 & dq2 & Hrun2 & Hstep2 & Hq2 & Hr2).
    simpl. unfold bind. rewrite Hrun1.
    exists u2, tc2, w2, (dq1 ++ dq2)%list.
    split; [exact Hrun2|].
    split; [exact (step_trans Hstep1 Hstep2)|].
    split; [|auto].
    rewrite map_app, <- app_assoc.
    eapply Permutation_trans; [apply Permutation_app_head; exact Hq2|exact Hq1].
Qed.

Lemma wait_units_queries (units : list unit_state) (totalCount : Z) (w : World T) :
  exists totalCount' w' dq,
    wait_units rc units totalCount w = Some (totalCount', w')
    /\ step w w' dq [] [] [] []
    /\ map fst dq = count_queries (spawned units)
    /\ (-2147483648 <= totalCount < 2147483648 ->
        -2147483648 <= totalCount' < 2147483648).
Proof.
  revert totalCount w. induction units as [|u rest IH]; intros totalCount w.
  - exists totalCount, w, []. split; [reflexivity|]. split; [apply step_refl|].
    split; [reflexivity|auto].
  - destruct (unit_step_queries u totalCount w)
      as (u1 & tc1 & w1 & dq1 & Hrun1 & Hstep1 & Hq1 & Hr1 & Hl1).
    destruct (unit_step_queries u1 tc1 w1)
      as (u2 & tc2 & w2 & dq2 & Hrun2 & Hstep2 & Hq2 & Hr2 & Hl2).
    destruct (unit_step_queries u2 tc2 w2)
      as (u3 & tc3 & w3 & dq3 & Hrun3 & Hstep3 & Hq3 & Hr3 & Hl3).
    destruct (IH tc3 w3) as (tc4 & w4 & dq4 & Hrun4 & Hstep4 & Hq4 & Hr4).
    cbn [wait_units]. unfold bind. rewrite Hrun1, Hrun2, Hrun3.
    exists tc4, w4, (((dq1 ++ dq2) ++ dq3) ++ dq4)%list.
    split; [exact Hrun4|].
    split; [exact (step_trans (step_trans (step_trans Hstep1 Hstep2) Hstep3) Hstep4)|].
    split; [|auto].
    assert (Hdone : spawned [u3] = []).
    { assert (Hz : steps_left u3 = 0%nat).
      { destruct u; simpl in *; lia. }
      destruct u3; simpl in Hz; try discriminate. reflexivity. }
    rewrite Hdone in Hq3. change (count_queries []) with (@nil Call) in Hq3.
    rewrite app_nil_r in Hq3.
    rewrite (spawned_cons u rest). unfold count_queries in *.
    rewrite !map_app, Hq4, <- Hq1, <- Hq2, <- Hq3.
    rewrite <- !app_assoc. reflexivity.
Qed.

Lemma spawned_all (orgs : list ExtendedOrg) : spawned (map Spawned orgs) = orgs.
Proof.
  induction orgs as [|org orgs IH]; [reflexivity|].
  simpl map. rewrite spawned_cons, IH. reflexivity.
Qed.

(** X7.  Whatever the schedule of its units, [CollectMetadata] returns once
    the organisations are discovered: it has made the discovery and then one
    count query for each organisation, in some order, and no other call; it
    has sent nothing to the tracker, the entity channel or the progress
    channel and logged nothing, failed count queries included; and the total
    it returns is an [int32] value. *)
Theorem CollectMetadata_queries_each_organisation_once (schedule : list nat)
    (orgs : list ExtendedOrg) (w : World T) :
  fst (ghclient.CollectOrganizations (Client rc) (transport w)) = Ok orgs ->
  exists m w' dq,
    CollectMetadata rc schedule w = Some (m, w')
    /\ step w w' ((CallCollectOrganizations, None) :: dq) [] [] [] []
    /\ Permutation (map fst dq) (count_queries orgs)
    /\ -2147483648 <= TotalEntities m < 2147483648.
Proof.
  intros Hok. unfold CollectMetadata.
  destruct (remote_run CallCollectOrganizations outcome_err
              (ghclient.CollectOrganizations (Client rc)) w) as (w1 & Hq & _ & Hstep).
  rewrite Hok in Hq, Hstep. simpl in Hstep.
  erewrite bind_run; [|exact Hq].
  destruct (run_schedule_queries schedule (map Spawned orgs) 0 w1)
    as (u2 & tc2 & w2 & dq2 & Hrun2 & Hstep2 & Hq2 & Hr2).
  destruct (wait_units_queries u2 tc2 w2) as (tc3 & w3 & dq3 & Hrun3 & Hstep3 & Hq3 & Hr3).
  cbv zeta. unfold bind at 1. rewrite Hrun2. unfold bind. rewrite Hrun3.
  exists {| TotalEntities := tc3 |}, w3, (dq2 ++ dq3)%list.
  split; [reflexivity|].
  split; [exact (step_trans (step_trans Hstep Hstep2) Hstep3)|].
  split.
  - rewrite map_app, Hq3. rewrite spawned_all in Hq2. exact Hq2.
  - simpl. apply Hr3, Hr2. lia.
Qed.















Section Bounds.
Unset Implicit Arguments.
Variable count : ExtendedOrg -> outcome Z.
Hypothesis count_answers :
  forall org t, fst (ghclient.QueryTotalCount (Client rc) (Login org) t) = count org.
Hypothesis count_not_negative : forall org c, count org = Ok c -> 0 <= c.

Lemma pending_not_negative (added : Z) (u : unit_state) :
  sound added u -> 0 <= pending count u.
Proof.
  destruct u as [org|c|c r|]; simpl; try lia.
  destruct (count org) as [c|e] eqn:Hc; [|lia].
  intros _. exact (@count_not_negative org _ Hc).
Qed.

Lemma pending_all_not_negative (added : Z) (units : list unit_state) :
  Forall (sound added) units -> 0 <= pending_all count units.
Proof.
  induction 1 as [|u units Hu _ IH]; simpl; [lia|].
  pose proof (pending_not_negative added u Hu). lia.
Qed.

Lemma sound_later (added added' : Z) (u : unit_state) :
  added <= added' -> sound added u -> sound added' u.
Proof. destruct u; simpl; intros; lia. Qed.

Lemma unit_step_sound (u : unit_state) (totalCount added : Z) (w : World T) :
  0 <= totalCount <= added ->
  sound added u ->
  added + pending count u < 2147483648 ->
  exists u' totalCount' w' added',
    unit_step rc u totalCount w = Some ((u', totalCount'), w')
    /\ added <= added'
    /\ 0 <= totalCount' <= added'
    /\ sound added' u'
    /\ added' + pending count u' = added + pending count u
    /\ (steps_left u' <= steps_left u - 1)%nat.
Proof.
  intros Htc Hu Hfit.
  destruct u as [org|c|c r|]; simpl in *.
  - unfold bind, remote, ret. rewrite count_answers.
    destruct (count org) as [c|e] eqn:Hc; simpl.
    + eexists (Queried c), totalCount, _, added. split; [reflexivity|].
      split; [lia|]. split; [lia|].
      split; [exact (@count_not_negative org _ Hc)|]. split; [reflexivity|simpl; lia].
    + eexists Returned, totalCount, _, added. split; [reflexivity|].
      split; [lia|]. split; [lia|]. split; [exact I|]. split; [reflexivity|simpl; lia].
  - exists (Loaded c totalCount), totalCount, w, added. split; [reflexivity|].
    split; [lia|]. split; [lia|]. split; [simpl; lia|]. split; [reflexivity|simpl; lia].
  - exists Returned, (r + c), w, (added + c). split.
    + unfold ret. rewrite (@int32_in_range c) by lia.
      rewrite (@int32_in_range (r + c)) by lia. reflexivity.
    + split; [lia|]. split; [lia|]. split; [exact I|]. split; [simpl; lia|simpl; lia].
  - exists Returned, totalCount, w, added. split; [reflexivity|].
    split; [lia|]. split; [lia|]. split; [exact I|]. split; [reflexivity|simpl; lia].
Qed.

Lemma step_at_sound (i : nat) (units : list unit_state) (totalCount added : Z)
    (w : World T) :
  0 <= totalCount <= added ->
  Forall (sound added) units ->
  added + pending_all count units < 2147483648 ->
  exists units' totalCount' w' added',
    step_at rc i units totalCount w = Some ((units', totalCount'), w')
    /\ added <= added'
    /\ 0 <= totalCount' <= added'
    /\ Forall (sound added') units'
    /\ added' + pending_all count units' = added + pending_all count units.
Proof.
  revert i totalCount added w.
  induction units as [|u rest IH]; intros i totalCount added w Htc Hall Hfit.
  - exists [], totalCount, w, added. split; [now destruct i|].
    split; [lia|]. split; [lia|]. split; [constructor|reflexivity].
  - inversion Hall as [|? ? Hu Hrest]; subst. simpl in Hfit.
    pose proof (pending_all_not_negative added rest Hrest) as Hp.
    pose proof (pending_not_negative added u Hu) as Hpu.
    destruct i as [|j]; cbn [step_at].
    + destruct (unit_step_sound u totalCount added w Htc Hu ltac:(lia))
        as (u' & tc' & w' & added' & Hrun & Hle & Htc' & Hu' & Hsum & _).
      unfold bind, ret. rewrite Hrun.
      exists (u' :: rest), tc', w', added'. split; [reflexivity|].
      split; [exact Hle|]. split; [exact Htc'|].
      split; [constructor; [exact Hu'|]|simpl; lia].
      eapply Forall_impl; [|exact Hrest]. intros x. now apply sound_later.
    + destruct (IH j totalCount added w Htc Hrest ltac:(lia))
        as (rest' & tc' & w' & added' & Hrun & Hle & Htc' & Hrest' & Hsum).
      unfold bind, ret. rewrite Hrun.
      exists (u :: rest'), tc', w', added'. split; [reflexivity|].
      split; [exact Hle|]. split; [exact Htc'|].
      split; [constructor; [now apply (sound_later added)|exact Hrest']|simpl; lia].
Qed.

Lemma run_schedule_sound (schedule : list nat) (units : list unit_state)
    (totalCount added : Z) (w : World T) :
  0 <= totalCount <= added ->
  Forall (sound added) units ->
  added + pending_all count units < 2147483648 ->
  exists units' totalCount' w' added',
    run_schedule rc schedule units totalCount w = Some ((units', totalCount'), w')
    /\ 0 <= totalCount' <= added'
    /\ Forall (sound added') units'
    /\ added' + pending_all count units' = added + pending_all count units.
Proof.
  revert units totalCount added w.
  induction schedule as [|i schedule IH]; intros units totalCount added w Htc Hall Hfit.
  - exists units, totalCount, w, added. split; [reflexivity|].
    split; [exact Htc|]. split; [exact Hall|reflexivity].
  - destruct (step_at_sound i units totalCount added w Htc Hall Hfit)
      as (u1 & tc1 & w1 & a1 & Hrun1 & Hle1 & Htc1 & Hall1 & Hsum1).
    destruct (IH u1 tc1 a1 w1 Htc1 Hall1 ltac:(lia))
      as (u2 & tc2 & w2 & a2 & Hrun2 & Htc2 & Hall2 & Hsum2).
    simpl. unfold bind. rewrite Hrun1.
    exists u2, tc2, w2, a2. split; [exact Hrun2|].
    split; [exact Htc2|]. split; [exact Hall2|lia].
Qed.

Lemma wait_units_sound (units : list unit_state) (totalCount added : Z) (w : World T) :
  0 <= totalCount <= added ->
  Forall (sound added) units ->
  added + pending_all count units < 2147483648 ->
  exists totalCount' w',
    wait_units rc units totalCount w = Some (totalCount', w')
    /\ 0 <= totalCount' <= added + pending_all count units.
Proof.
  revert totalCount added w.
  induction units as [|u rest IH]; intros totalCount added w Htc Hall Hfit.
  - exists totalCount, w. split; [reflexivity|]. simpl. lia.
  - inversion Hall as [|? ? Hu Hrest]; subst. simpl in Hfit.
    pose proof (pending_all_not_negative added rest Hrest) as Hp.
    destruct (unit_step_sound u totalCount added w Htc Hu ltac:(lia))
      as (u1 & tc1 & w1 & a1 & Hrun1 & Hle1 & Htc1 & Hu1 & Hsum1 & Hl1).
    destruct (unit_step_sound u1 tc1 a1 w1 Htc1 Hu1 ltac:(lia))
      as (u2 & tc2 & w2 & a2 & Hrun2 & Hle2 & Htc2 & Hu2 & Hsum2 & Hl2).
    destruct (unit_step_sound u2 tc2 a2 w2 Htc2 Hu2 ltac:(lia))
      as (u3 & tc3 & w3 & a3 & Hrun3 & Hle3 & Htc3 & Hu3 & Hsum3 & Hl3).
    assert (Hdone : pending count u3 = 0).
    { assert (Hz : steps_left u3 = 0%nat) by (destruct u; simpl in *; lia).
      destruct u3; simpl in Hz; try discriminate. reflexivity. }
    assert (Hrest3 : Forall (sound a3) rest).
    { eapply Forall_impl; [|exact Hrest]. intros x. apply sound_later. lia. }
    destruct (IH tc3 a3 w3 Htc3 Hrest3 ltac:(lia)) as (tc4 & w4 & Hrun4 & Htc4).
    cbn [wait_units]. unfold bind. rewrite Hrun1, Hrun2, Hrun3.
    exists tc4, w4. split; [exact Hrun4|]. simpl. lia.
Qed.

Lemma pending_all_spawned (orgs : list ExtendedOrg) :
  pending_all count (map Spawned orgs) = answered_sum count orgs.
Proof.
  induction orgs as [|org orgs IH]; [reflexivity|].
  simpl. rewrite IH. destruct (count org); lia.
Qed.

(** X8.  When the counts of the organisations are not negative and the sum
    of the ones that were answered fits in [int32], the total that
    [CollectMetadata] returns lies between 0 and that sum under every
    schedule of its units: an interleaving can lose counts, it never adds
    any. *)
Theorem CollectMetadata_never_exceeds_the_sum (schedule : list nat)
    (orgs : list ExtendedOrg) (w : World T) :
  fst (ghclient.CollectOrganizations (Client rc) (transport w)) = Ok orgs ->
  answered_sum count orgs < 2147483648 ->
  exists m w',
    CollectMetadata rc schedule w = Some (m, w')
    /\ 0 <= TotalEntities m <= answered_sum count orgs.
Proof.
  intros Hok Hfit. unfold CollectMetadata.
  destruct (remote_run CallCollectOrganizations outcome_err
              (ghclient.CollectOrganizations (Client rc)) w) as (w1 & Hq & _ & _).
  rewrite Hok in Hq. erewrite bind_run; [|exact Hq].
  assert (Hall : Forall (sound 0) (map Spawned orgs)).
  { apply Forall_forall. intros u Hin. apply in_map_iff in Hin.
    destruct Hin as (org & <- & _). exact I. }
  destruct (run_schedule_sound schedule (map Spawned orgs) 0 0 w1 ltac:(lia) Hall
              ltac:(rewrite pending_all_spawned; lia))
    as (u2 & tc2 & w2 & a2 & Hrun2 & Htc2 & Hall2 & Hsum2).
  rewrite pending_all_spawned in Hsum2.
  destruct (wait_units_sound u2 tc2 a2 w2 Htc2 Hall2 ltac:(lia))
    as (tc3 & w3 & Hrun3 & Htc3).
  cbv zeta. unfold bind at 1. rewrite Hrun2. unfold bind. rewrite Hrun3.
  exists {| TotalEntities := tc3 |}, w3. split; [reflexivity|]. simpl. lia.
Qed.

(** X9.  With its units run one after the other, and under the same
    conditions on the counts, [CollectMetadata] returns exactly the sum of
    the counts that were answered: an organisation whose count query fails
    contributes nothing, and its failure leaves no record and no log line.
    The queries are made in the order of the organisations. *)
Theorem CollectMetadata_serial_is_the_sum (orgs : list ExtendedOrg) (w : World T) :
  fst (ghclient.CollectOrganizations (Client rc) (transport w)) = Ok orgs ->
  answered_sum count orgs < 2147483648 ->
  exists w' dq,
    CollectMetadata rc [] w = Some ({| TotalEntities := answered_sum count orgs |}, w')
    /\ step w w' ((CallCollectOrganizations, None) :: dq) [] [] [] []
    /\ map fst dq = count_queries orgs.
Proof.
  intros Hok Hfit.
  destruct (@CollectMetadata_serial T rc orgs w Hok) as (w' & dq & Hrun & Hstep & Hcalls).
  exists w', dq. split; [|split; [exact Hstep|exact Hcalls]].
  rewrite Hrun.
  rewrite (@serial_count_sum T rc count orgs count_answers count_not_negative) by lia.
  reflexivity.
Qed.

End Bounds.
Set Implicit Arguments.

End Further.

(* ===================================================================== *)
(** ** The analyze command *)
(* ===================================================================== *)

Section Command.

Import cmd.

Lemma string_length_append (a b : string) :
  String.length (a ++ b) = (String.length a + String.length b)%nat.
Proof. induction a as [|c a IH]; simpl; [reflexivity | now rewrite IH]. Qed.

Lemma string_append_cancel_r (s a b : string) : (a ++ s = b ++ s)%string -> a = b.
Proof.
  revert b. induction a as [|c a IH]; intros [|d b] H; simpl in H.
  - reflexivity.
  - apply (f_equal String.length) in H. simpl in H.
    rewrite string_length_append in H. lia.
  - apply (f_equal String.length) in H. simpl in H.
    rewrite string_length_append in H. lia.
  - injection H as -> H. f_equal. now apply IH.
Qed.

Lemma concat_cons (x : string) (xs : list string) :
  String.concat "/" (x :: xs)
  = (x ++ match xs with [] => "" | _ :: _ => "/" ++ String.concat "/" xs end)%string.
Proof.
  destruct xs as [|y ys]; simpl; [|reflexivity].
  induction x as [|c x IH]; simpl; [reflexivity | now rewrite <- IH].
Qed.

Lemma slash_free_split (a a' x x' : string) :
  slash_free a = true -> slash_free a' = true ->
  (x = "" \/ exists r, x = String "/" r) ->
  (x' = "" \/ exists r, x' = String "/" r) ->
  (a ++ x = a' ++ x')%string -> a = a' /\ x = x'.
Proof.
  revert a'. induction a as [|c a IH]; intros [|d a'] Ha Ha' Hx Hx' H; simpl in *.
  - now split.
  - apply andb_prop in Ha' as [Hd _].
    destruct Hx as [-> | [r ->]]; [discriminate|].
    injection H as <- _. discriminate.
  - apply andb_prop in Ha as [Hc _].
    destruct Hx' as [-> | [r ->]]; [discriminate|].
    injection H as -> _. discriminate.
  - apply andb_prop in Ha as [_ Ha]. apply andb_prop in Ha' as [_ Ha'].
    injection H as -> H.
    destruct (IH a' Ha Ha' Hx Hx' H) as [-> ->]. now split.
Qed.

Lemma concat_slash_free_injective (l l' : list string) :
  l <> [] -> l' <> [] ->
  Forall (fun s => slash_free s = true) l ->
  Forall (fun s => slash_free s = true) l' ->
  String.concat "/" l = String.concat "/" l' -> l = l'.
Proof.
  revert l'. induction l as [|a r IH]; intros [|a' r'] Hn Hn' Hl Hl' H;
    try congruence.
  rewrite !concat_cons in H.
  inversion Hl as [|? ? Ha Hr]; subst. inversion Hl' as [|? ? Ha' Hr']; subst.
  apply slash_free_split in H; try assumption.
  - destruct H as [-> H]. f_equal.
    destruct r as [|b r]; destruct r' as [|b' r']; try discriminate.
    + reflexivity.
    + injection H as H. apply IH; try assumption; congruence.
  - destruct r; [now left | right; eexists; reflexivity].
  - destruct r'; [now left | right; eexists; reflexivity].
Qed.

(** X10 ([toOptionsString]): the usage string is as long as the options
    together, plus one separator between each two of them and the two
    brackets. *)
Theorem toOptionsString_length (options : list string) :
  String.length (toOptionsString options)
  = (2 + list_sum (map String.length options) + (List.length options - 1))%nat.
Proof.
  unfold toOptionsString. simpl. rewrite string_length_append. simpl.
  assert (H : String.length (String.concat "/" options)
              = (list_sum (map String.length options) + (List.length options - 1))%nat).
  { induction options as [|x xs IH]; [reflexivity|].
    rewrite concat_cons, string_length_append.
    destruct xs as [|y ys]; [simpl; lia|].
    change (String.length ("/" ++ String.concat "/" (y :: ys)))
      with (Datatypes.S (String.length (String.concat "/" (y :: ys)))).
    rewrite IH. cbn [map list_sum fold_right List.length]. lia. }
  rewrite H. lia.
Qed.

(** X11 ([toOptionsString]): over options that hold no "/", the usage string
    tells the options: two lists with the same string are the same list, the
    only exception being no option at all and the one empty option, which
    both give "[]". *)
Theorem toOptionsString_tells_the_options (options options' : list string) :
  Forall (fun s => slash_free s = true) options ->
  Forall (fun s => slash_free s = true) options' ->
  options <> [""] -> options' <> [""] ->
  toOptionsString options = toOptionsString options' ->
  options = options'.
Proof.
  intros Hl Hl' Hn Hn' H. unfold toOptionsString in H. simpl in H.
  injection H as H. apply string_append_cancel_r in H.
  assert (Hempty : forall l, String.concat "/" l = "" -> l = [] \/ l = [""]).
  { intros [|a r] Hc; [now left | right].
    rewrite concat_cons in Hc.
    destruct a; [|discriminate]. destruct r; [reflexivity | discriminate]. }
  destruct options as [|a r].
  - symmetry in H. destruct (Hempty _ H) as [-> | ->]; [reflexivity | congruence].
  - destruct options' as [|a' r'].
    + destruct (Hempty _ H) as [E | E]; congruence.
    + apply concat_slash_free_injective; try assumption; discriminate.
Qed.

(** X12 ([validateAnalyzeArgs]): the arguments are accepted exactly when the
    five validators accept them and organizations and repositories are not
    both given; an error of a validator is returned only if the validators
    before it accepted, and the error about the two options only if all five
    did. *)
Theorem validateAnalyzeArgs_accepts (v : validators) (a : args) :
  (validateAnalyzeArgs v a = None <->
     validateCommonOptions v a = None /\
     ValidateNamespaces v (Namespaces a) = None /\
     ValidateOutputScheme v (OutputScheme a) = None /\
     ValidateOutputFormat v (OutputFormat a) (OutputScheme a) = None /\
     ValidateScorecardOption v (ScorecardWhen a) = None /\
     (Organizations a = [] \/ Repositories a = [])) /\
  (forall e, validateCommonOptions v a = Some e -> validateAnalyzeArgs v a = Some e) /\
  (Organizations a <> [] -> Repositories a <> [] ->
   validateCommonOptions v a = None ->
   ValidateNamespaces v (Namespaces a) = None ->
   ValidateOutputScheme v (OutputScheme a) = None ->
   ValidateOutputFormat v (OutputFormat a) (OutputScheme a) = None ->
   ValidateScorecardOption v (ScorecardWhen a) = None ->
   validateAnalyzeArgs v a
   = Some (OtherError "cannot use --org & --repo options together")).
Proof.
  unfold validateAnalyzeArgs.
  split; [|split].
  - destruct (validateCommonOptions v a); [split; [discriminate | intros [? _]; discriminate]|].
    destruct (ValidateNamespaces v _); [split; [discriminate | intros (_ & ? & _); discriminate]|].
    destruct (ValidateOutputScheme v _); [split; [discriminate | intros (_ & _ & ? & _); discriminate]|].
    destruct (ValidateOutputFormat v _ _); [split; [discriminate | intros (_ & _ & _ & ? & _); discriminate]|].
    destruct (ValidateScorecardOption v _); [split; [discriminate | intros (_ & _ & _ & _ & ? & _); discriminate]|].
    destruct (Organizations a), (Repositories a); simpl; split; intros H;
      try discriminate; auto 10.
    destruct H as (_ & _ & _ & _ & _ & [H | H]); discriminate.
  - intros e ->. reflexivity.
  - intros Ho Hr -> -> -> -> ->.
    destruct (Organizations a), (Repositories a); simpl; congruence.
Qed.

(** Closes the case of [executeAnalyzeCommand] that does the first [n]
    planned actions. *)
Ltac stopped n :=
  simpl; split; [reflexivity|]; exists n; simpl;
  rewrite <- ?app_assoc; simpl;
  split; [lia|]; split; [reflexivity|];
  split;
  [ intros Hne; first [ split; [reflexivity | discriminate] | congruence ] |];
  split;
  [ intros Hin;
    first [ split; [assumption | solve [auto]]
          | simpl in Hin; intuition discriminate ]
  | intros Hnone;
    first [ discriminate
          | split; [reflexivity
                   | eexists (_ :: _ :: _ :: _ :: _ :: _ :: nil); reflexivity] ] ].

(** X13 ([executeAnalyzeCommand]): a call applies the environment and
    exports the token first, whatever the arguments are; what it does is
    always a beginning of the planned sequence; arguments that do not
    validate stop it right after the export, with an error and before any
    file is set; and it returns no error only when the whole sequence was
    done, which ends with the run of the executor. *)
Theorem executeAnalyzeCommand_stops_at_the_first_failure
    (S E : Type) (sys : system S E) (st : state S) :
  let a := fst (ApplyEnvVars sys (analyzeArgs st) (sys_state st)) in
  let r := executeAnalyzeCommand sys st in
  analyzeArgs (snd r) = a /\
  exists n,
    (2 <= n)%nat /\
    actions (snd r) = (actions st ++ firstn n (planned sys a))%list /\
    (validateAnalyzeArgs (checks sys) a <> None -> n = 2%nat /\ fst r <> None) /\
    (In ActRun (firstn n (planned sys a)) ->
       validateAnalyzeArgs (checks sys) a = None /\
       (ScmType a = GitHub sys \/ ScmType a = GitLab sys)) /\
    (fst r = None ->
       firstn n (planned sys a) = planned sys a /\
       exists before, planned sys a = (before ++ [ActRun])%list).
Proof.
  unfold executeAnalyzeCommand, planned.
  destruct (ApplyEnvVars sys (analyzeArgs st) (sys_state st)) as [a s1]. simpl fst.
  destruct (Setenv sys "GITHUB_AUTH_TOKEN" (Token a) s1) as [[e|] s2];
    [stopped 2%nat|].
  destruct (validateAnalyzeArgs (checks sys) a) as [e|] eqn:Hv;
    [stopped 2%nat|].
  destruct (setErrorFile sys (ErrorFile a) s2) as [[e|] s3];
    [stopped 3%nat|].
  destruct (setOutputFile sys (OutputFile a) s3) as [[e|] s4];
    [stopped 4%nat|].
  destruct (InitColorPackage sys (ColorWhen a) s4) as [[e|] s5];
    [stopped 5%nat|].
  destruct (String.eqb (ScmType a) (GitHub sys)) eqn:Hgh.
  { apply String.eqb_eq in Hgh.
    destruct (setupGitHub sys a s5) as [[executor|e] s6]; [|stopped 6%nat].
    destruct (Run sys executor s6) as [err s7]. stopped 7%nat. }
  destruct (String.eqb (ScmType a) (GitLab sys)) eqn:Hgl.
  { apply String.eqb_eq in Hgl.
    destruct (setupGitLab sys a s5) as [[executor|e] s6]; [|stopped 6%nat].
    destruct (Run sys executor s6) as [err s7]. stopped 7%nat. }
  stopped 5%nat.
Qed.

End Command.

(* ===================================================================== *)
(** ** Runs against the scripted remote side *)
(* ===================================================================== *)

Module Runs.
Import Mock.
Import Scenario.








Lemma CollectMetadata_can_lose_a_count_witness :
  fst (ghclient.CollectOrganizations (Client mixed_collector) (transport world0))
  = Ok [org_a; org_b]
  /\ (forall t, fst (ghclient.QueryTotalCount (Client mixed_collector) (Login org_a) t) = Ok 1)
  /\ (forall t, fst (ghclient.QueryTotalCount (Client mixed_collector) (Login org_b) t) = Ok 1)
  /\ exists w',
       CollectMetadata mixed_collector [0; 1; 0; 1; 0; 1]%nat world0
       = Some ({| TotalEntities := int32 1 |}, w').
Proof.
  split; [reflexivity|]. split; [intros t; reflexivity|]. split; [intros t; reflexivity|].
  apply (@CollectMetadata_can_lose_a_count unit mixed_collector org_a org_b 1 1 world0);
    [reflexivity | intros t; reflexivity | intros t; reflexivity].
Defined.

(** C8.  The total of [CollectMetadata] is a plain variable that the units
    of two organisations read and write in separate steps.  With one
    repository counted in each organisation, the units run one after the
    other return 2; when both read the total before either writes it, the
    run returns 1: the update is not made under any synchronisation. *)
Theorem totalCount_is_updated_without_synchronisation :
  option_map fst (CollectMetadata mixed_collector [] world0)
  = Some {| TotalEntities := 2 |}
  /\ option_map fst (CollectMetadata mixed_collector [0; 1; 0; 1]%nat world0)
     = Some {| TotalEntities := 1 |}.
Proof. split; reflexivity. Qed.




Lemma fixBranchProtectionInfo_leaves_unchanged_witness :
  (DefaultBranchRef (Repository_ (new_Repository public_node)) = None
   \/ (exists ref rule,
         DefaultBranchRef (Repository_ (new_Repository public_node)) = Some ref
         /\ BranchProtectionRule_ ref = Some rule)
   \/ (exists ref,
         DefaultBranchRef (Repository_ (new_Repository public_node)) = Some ref
         /\ BranchProtectionRule_ ref = None
         /\ fst (ghclient.GetBranchProtection (Client inconsistent_collector) "a"
                   (Name (Repository_ (new_Repository public_node))) (BranchName ref)
                   (transport world0)) = None))
  /\ exists w',
       fixBranchProtectionInfo inconsistent_collector (new_Repository public_node) "a" world0
       = Some ((new_Repository public_node, None), w')
       /\ tracker w' = tracker world0
       /\ checkMissingPermissions (new_Repository public_node) "a/p" = [].
Proof.
  assert (Hcase :
    DefaultBranchRef (Repository_ (new_Repository public_node)) = None
    \/ (exists ref rule,
          DefaultBranchRef (Repository_ (new_Repository public_node)) = Some ref
          /\ BranchProtectionRule_ ref = Some rule)
    \/ (exists ref,
          DefaultBranchRef (Repository_ (new_Repository public_node)) = Some ref
          /\ BranchProtectionRule_ ref = None
          /\ fst (ghclient.GetBranchProtection (Client inconsistent_collector) "a"
                    (Name (Repository_ (new_Repository public_node))) (BranchName ref)
                    (transport world0)) = None)).
  { right. right. exists main_branch. split; [reflexivity|]. split; reflexivity. }
  split; [exact Hcase|].
  destruct (@fixBranchProtectionInfo_leaves_unchanged unit inconsistent_collector
              (new_Repository public_node) "a" "a/p" world0 Hcase)
    as (w' & dc & dl & Hrun & Hstep & _ & _ & _ & _ & Hcheck).
  exists w'. split; [exact Hrun|]. split.
  - rewrite (step_tracker Hstep). apply app_nil_r.
  - exact (Hcheck eq_refl).
Defined.



Lemma getRepositoryHooks_gathers_every_page_witness :
  hooks_replies inconsistent_collector "a" (Name (Repository_ (new_Repository public_node)))
    0 (transport world0) [(0, hooks_ok)] tt
  /\ (forall pr, In pr [(0, hooks_ok)] -> err (snd pr) = None)
  /\ (List.length [(0, hooks_ok)] <= 3)%nat
  /\ exists w',
       getRepositoryHooks inconsistent_collector 3 (new_Repository public_node) "a" world0
       = Some ((set_Hooks (new_Repository public_node) (Some [hook1]), None), w')
       /\ step world0 w'
            (hooks_calls "a" (Name (Repository_ (new_Repository public_node)))
               [(0, hooks_ok)]) [] [] [] [].
Proof.
  assert (Hpages : hooks_replies inconsistent_collector "a"
                     (Name (Repository_ (new_Repository public_node)))
                     0 (transport world0) [(0, hooks_ok)] tt).
  { apply replies_end; [reflexivity|]. right. reflexivity. }
  assert (Hok : forall pr, In pr [(0, hooks_ok)] -> err (snd pr) = None).
  { intros pr [<-|[]]. reflexivity. }
  split; [exact Hpages|]. split; [exact Hok|]. split; [simpl; lia|].
  destruct (@getRepositoryHooks_gathers_every_page unit inconsistent_collector 3%nat
              (new_Repository public_node) "a" world0 [(0, hooks_ok)] tt Hpages Hok
              (le_S _ _ (le_S _ _ (le_n 1))))
    as (w' & Hrun & _ & Hstep & _).
  exists w'. exact (conj Hrun Hstep).
Defined.



Lemma CollectMetadata_queries_each_organisation_once_witness :
  fst (ghclient.CollectOrganizations (Client mixed_collector) (transport world0))
  = Ok [org_a; org_b]
  /\ exists m w' dq,
       CollectMetadata mixed_collector [1; 0; 1; 0]%nat world0 = Some (m, w')
       /\ step world0 w' ((CallCollectOrganizations, None) :: dq) [] [] [] []
       /\ Permutation (map fst dq) (count_queries [org_a; org_b])
       /\ -2147483648 <= TotalEntities m < 2147483648.
Proof.
  split; [reflexivity|].
  exact (@CollectMetadata_queries_each_organisation_once unit mixed_collector
           [1; 0; 1; 0]%nat [org_a; org_b] world0 eq_refl).
Defined.

Lemma CollectMetadata_never_exceeds_the_sum_witness :
  (forall org t, fst (ghclient.QueryTotalCount (Client mixed_collector) (Login org) t)
                 = Ok 1)
  /\ (forall (org : ExtendedOrg) c, @Ok Z 1 = Ok c -> 0 <= c)
  /\ fst (ghclient.CollectOrganizations (Client mixed_collector) (transport world0))
     = Ok [org_a; org_b]
  /\ answered_sum (fun _ => Ok 1) [org_a; org_b] < 2147483648
  /\ exists m w',
       CollectMetadata mixed_collector [0; 1; 0; 1]%nat world0 = Some (m, w')
       /\ 0 <= TotalEntities m <= answered_sum (fun _ => Ok 1) [org_a; org_b].
Proof.
  assert (Hpos : forall (org : ExtendedOrg) c, @Ok Z 1 = Ok c -> 0 <= c).
  { intros org c H. injection H as <-. lia. }
  split; [intros org t; reflexivity|]. split; [exact Hpos|].
  split; [reflexivity|]. split; [reflexivity|].
  exact (@CollectMetadata_never_exceeds_the_sum unit mixed_collector (fun _ => Ok 1)
           (fun org t => eq_refl) Hpos [0; 1; 0; 1]%nat [org_a; org_b] world0
           eq_refl eq_refl).
Defined.

Lemma CollectMetadata_serial_is_the_sum_witness :
  (forall org t, fst (ghclient.QueryTotalCount (Client mixed_collector) (Login org) t)
                 = Ok 1)
  /\ (forall (org : ExtendedOrg) c, @Ok Z 1 = Ok c -> 0 <= c)
  /\ fst (ghclient.CollectOrganizations (Client mixed_collector) (transport world0))
     = Ok [org_a; org_b]
  /\ answered_sum (fun _ => Ok 1) [org_a; org_b] < 2147483648
  /\ exists w' dq,
       CollectMetadata mixed_collector [] world0
       = Some ({| TotalEntities := answered_sum (fun _ => Ok 1) [org_a; org_b] |}, w')
       /\ step world0 w' ((CallCollectOrganizations, None) :: dq) [] [] [] []
       /\ map fst dq = count_queries [org_a; org_b].
Proof.
  assert (Hpos : forall (org : ExtendedOrg) c, @Ok Z 1 = Ok c -> 0 <= c).
  { intros org c H. injection H as <-. lia. }
  split; [intros org t; reflexivity|]. split; [exact Hpos|].
  split; [reflexivity|]. split; [reflexivity|].
  exact (@CollectMetadata_serial_is_the_sum unit mixed_collector (fun _ => Ok 1)
           (fun org t => eq_refl) Hpos [org_a; org_b] world0 eq_refl eq_refl).
Defined.


(** The run over the repository whose lookup is answered: the line about the
    inconsistency and the line of the failed scorecard, and nothing else. *)
Example inconsistent_run_logs :
  option_map (fun r => map fst (logs (snd r)))
    (collectExtraData inconsistent_collector 3 org_a public_node world0)
  = Some [fst inconsistency_line; "error getting scorecard result for %s: %s"].
Proof. reflexivity. Qed.

Lemma toOptionsString_tells_the_options_witness :
  Forall (fun s => cmd.slash_free s = true) ["auto"; "always"; "never"]
  /\ ["auto"; "always"; "never"] <> [""]
  /\ cmd.toOptionsString ["auto"; "always"; "never"] = "[auto/always/never]"
  /\ ["auto"; "always"; "never"] = ["auto"; "always"; "never"].
Proof.
  assert (Hfree : Forall (fun s => cmd.slash_free s = true) ["auto"; "always"; "never"]).
  { repeat constructor. }
  assert (Hne : ["auto"; "always"; "never"] <> [""]) by discriminate.
  split; [exact Hfree|]. split; [exact Hne|]. split; [reflexivity|].
  exact (@toOptionsString_tells_the_options ["auto"; "always"; "never"]
           ["auto"; "always"; "never"] Hfree Hfree Hne Hne eq_refl).
Defined.

(** [Retry] under its contract: the third attempt of [flaky] reports
    success and is the last one. *)
Example Retry_stops_at_success :
  option_map (fun r => (fst r, logs (snd r))) (Retry flaky 5 "flaky operation" world0)
  = Some (None, [("attempt", []); ("attempt", []); ("attempt", [])]).
Proof. reflexivity. Qed.

(** [Retry] under its contract: five attempts of [hopeless], then the last
    error is surfaced and logged under the label. *)
Example Retry_gives_up_after_the_cap :
  option_map (fun r => (fst r, logs (snd r))) (Retry hopeless 5 "hopeless operation" world0)
  = Some (Some (OtherError "down"),
          [("attempt", []); ("attempt", []); ("attempt", []); ("attempt", []);
           ("attempt", []); ("hopeless operation", [ArgError (OtherError "down")])]).
Proof. reflexivity. Qed.

(** The run over the free-plan organisation: the record of the hooks stage
    and the record of the plan gate, one entity, no branch-protection call. *)
Example free_plan_run :
  option_map (fun r => (map Permission (tracker (snd r)),
                        map (fun c => Name (Repository_ (Entity_ c))) (emitted (snd r)),
                        existsb made_branch_protection_call (calls (snd r))))
    (Collect free_collector 3 world0)
  = Some ([permissions.RepoHookRead; permissions.RepoAdmin], ["r"], false).
Proof. reflexivity. Qed.

(** The run over the two pages: both repositories, in page order, after two
    queries. *)
Example paged_run :
  option_map (fun r => (map (fun c => Name (Repository_ (Entity_ c))) (emitted (snd r)),
                        filter made_query_call (calls (snd r))))
    (Collect paged_collector 3 world0)
  = Some (["p"; "r"],
          [(CallQueryRepos "a" None, None); (CallQueryRepos "a" (Some "c1"), None)]).
Proof. reflexivity. Qed.

(** A traversal that needs more pages than the fuel allows does not end. *)
Example out_of_fuel :
  collectRepositories paged_collector 1 org_a world0 = None.
Proof. reflexivity. Qed.

End Runs.
